(** * The tarot reading pipeline of chat-with-tarots

  A shallow embedding of the draw / resolve / build / complete chain:

  - [helpers/qianwen_help_func.py]      (module [Helpers])
  - [helpers/qwen_langchain_improved.py] (module [Qwen])
  - [qianwen_app.py]                     (module [App])

  Python strings are embedded as [string]; a literal with Chinese text is
  the UTF-8 byte sequence of the source literal.  Every delimiter the code
  looks at (braces, newline, star, parenthesis) is ASCII, so working on
  bytes agrees with working on code points. *)

From Stdlib Require Import ZArith QArith String Ascii DecimalString.
From stdpp Require Import gmap strings list.

Local Open Scope string_scope.
Local Open Scope Z_scope.

(** ** Python values, exceptions and text helpers *)

Module Py.

(** The exceptions (subclasses of [Exception]) the modelled code can see. *)
Inductive exn : Type :=
| ValueError (msg : string)
| KeyError (key : string)
| IndexError (msg : string)
| TypeError (msg : string)
| OtherError (msg : string).

(** [str(e)]: a [KeyError] prints the repr of its key. *)
Definition exn_str (e : exn) : string :=
  match e with
  | ValueError msg => msg
  | KeyError key => "'" +:+ key +:+ "'"
  | IndexError msg => msg
  | TypeError msg => msg
  | OtherError msg => msg
  end.

Inductive result (A : Type) : Type :=
| Ok (a : A)
| Raise (e : exn).
Arguments Ok {A} a.
Arguments Raise {A} e.

Definition bind {A B} (r : result A) (k : A → result B) : result B :=
  match r with
  | Ok a => k a
  | Raise e => Raise e
  end.

(** The values stored under the [Any] typed keys of a drawn card. *)
Inductive pyval : Type :=
| PNone
| PBool (b : bool)
| PInt (z : Z)
| PStr (s : string).

(** [str(int)] *)
Definition str_of_Z (z : Z) : string := NilZero.string_of_int (Z.to_int z).

(** [bool(v)], as used by [if v:] *)
Definition truthy (v : pyval) : bool :=
  match v with
  | PNone => false
  | PBool b => b
  | PInt z => negb (z =? 0)
  | PStr s => negb (String.eqb s "")
  end.

(** [format(v, '')], the text an f-string field [{v}] produces. *)
Definition str (v : pyval) : string :=
  match v with
  | PNone => "None"
  | PBool true => "True"
  | PBool false => "False"
  | PInt z => str_of_Z z
  | PStr s => s
  end.

(** [sep.join(l)] *)
Definition join (sep : string) (l : list string) : string := String.concat sep l.

(** [needle in hay] on strings, as a proposition and as a test. *)
Definition contains (needle hay : string) : Prop :=
  ∃ a b, hay = a +:+ needle +:+ b.

Fixpoint starts_with (p s : string) : bool :=
  match p, s with
  | EmptyString, _ => true
  | String a p', String b s' => Ascii.eqb a b && starts_with p' s'
  | String _ _, EmptyString => false
  end.

Fixpoint containsb (needle hay : string) : bool :=
  starts_with needle hay ||
  match hay with
  | EmptyString => false
  | String _ hay' => containsb needle hay'
  end.

(** [s.split(sep)] for a one-character separator. *)
Fixpoint split_on (sep : ascii) (s : string) : list string :=
  match s with
  | EmptyString => [EmptyString]
  | String c s' =>
      if Ascii.eqb c sep then EmptyString :: split_on sep s'
      else match split_on sep s' with
           | [] => [String c EmptyString]
           | l :: ls => String c l :: ls
           end
  end.

Definition newline : ascii := Ascii.ascii_of_nat 10.

(** The lines of a text joined with ["\n"]. *)
Definition lines (s : string) : list string := split_on newline s.

End Py.
Import Py.

(** ** The [random] module

  [random.sample] and [random.random] belong to the Python runtime.  The
  code is embedded over any generator state [G] with these two operations;
  the law is the documented contract of [random.sample]: for a count within
  range it returns the members found at pairwise distinct positions of the
  population. *)

Module Random.

Class RandomSource (G : Type) : Type := {
  (** [random.sample(population, k)] *)
  sample : ∀ {A : Type}, list A → Z → G → result (list A) * G;
  (** [random.random()]: the float [k / 2^53], given by its numerator [k] *)
  random : G → N * G;
  sample_positions :
    ∀ (A : Type) (population : list A) (k : Z) (g : G),
      0 ≤ k ≤ Z.of_nat (length population) →
      ∃ (ps : list nat) (g' : G),
        sample population k g
          = (Ok (omap (λ p, population !! p) ps), g')
        ∧ NoDup ps
        ∧ length ps = Z.to_nat k
        ∧ Forall (λ p, (p < length population)%nat) ps
}.

(** [r < 0.3] for [r = k / 2^53] against the double nearest to 0.3, which is
    [5404319552844595 / 2^54]. *)
Definition lt_0_3 (k : N) : bool := (2 * k <? 5404319552844595)%N.

(** State and exception passing over the generator. *)
Definition M (G A : Type) : Type := G → result A * G.

Definition ret {G A} (a : A) : M G A := λ g, (Ok a, g).
Definition raise {G A} (e : exn) : M G A := λ g, (Raise e, g).
Definition bindM {G A B} (m : M G A) (k : A → M G B) : M G B :=
  λ g, match m g with
       | (Ok a, g') => k a g'
       | (Raise e, g') => (Raise e, g')
       end.

(** The two library calls as computations of [M]. *)
Definition random_sample {G} `{RandomSource G} {A} (population : list A) (k : Z)
  : M G (list A) := sample population k.

Definition random_random {G} `{RandomSource G} : M G N :=
  λ g, let '(k, g') := random g in (Ok k, g').

(** A [for] loop that appends one item per element. *)
Fixpoint for_each {G A B} (l : list A) (body : A → M G B) : M G (list B) :=
  match l with
  | [] => ret []
  | x :: l' =>
      bindM (body x) (λ y, bindM (for_each l' body) (λ ys, ret (y :: ys)))
  end.

End Random.
Import Random.

Notation "'do' x <- m ; k" := (Random.bindM m (λ x, k))
  (at level 10, x name, m at level 100, k at level 200).

(** ** Streamlit output

    What a call of [st.error], [st.info] and the like puts on the page, in
    the order of the calls.  Layout calls ([st.columns], [st.spinner]) put no
    content of their own and leave no event. *)

Module St.

Inductive st_event : Type :=
| StError (body : string)
| StInfo (body : string)
| StWarning (body : string)
| StSubheader (body : string)
| StMarkdown (body : string)
| StWrite (body : string)
| StImage (path : string) (rotated : bool) (caption : string) (width : Z).

End St.
Import St.

(** ** helpers/qianwen_help_func.py *)

Module Helpers.

(** *** FallbackLLM *)

Record FallbackLLM : Type := { error_message : string }.

(** [FallbackLLM.invoke]: the argument is ignored. *)
Definition FallbackLLM_invoke {Msgs : Type} (self : FallbackLLM) (messages : Msgs) : string :=
  "抱歉，AI模型暂时不可用：" +:+ error_message self +:+ "。请稍后重试或检查配置。".

(** *** generate_random_draw *)

Section Draw.
Context {G : Type} `{RandomSource G}.

(** The body of the [for card_name in selected_cards] loop. *)
Definition draw_card (card_name : string) : M G (gmap string pyval) :=
  do r <- random_random;
  let is_reversed := lt_0_3 r in
  let card_info : gmap string pyval :=
    <["name" := PStr card_name]> (<["is_reversed" := PBool is_reversed]> ∅) in
  ret card_info.

Definition generate_random_draw (num_cards : Z) (available_cards : list string)
  : M G (list (gmap string pyval)) :=
  if decide (num_cards > Z.of_nat (length available_cards)) then
    raise (ValueError ("请求的牌数(" +:+ str_of_Z num_cards +:+ ")超过了可用牌数("
                       +:+ str_of_Z (Z.of_nat (length available_cards)) +:+ ")"))
  else
    do selected_cards <- random_sample available_cards num_cards;
    do drawn_cards <- for_each selected_cards draw_card;
    ret drawn_cards.

End Draw.

(** *** prepare_prompt_input *)

(** The dict with the two keys the chain builds ([RunnableParallel] with
    [cards=] and [context=]). *)
Record input_data : Type := {
  cards : list (gmap string pyval);
  context : string
}.

(** The returned dict literal, with its three fixed keys. *)
Record prompt_input : Type := {
  card_details : string;
  pi_context : string;
  symbolism : string
}.

(** [card_name in card_meanings] followed by [card_meanings[card_name]]: the
    table is keyed by strings, and no other value equals a string key. *)
Definition find_meaning (card_name : pyval) (card_meanings : gmap string (gmap string string))
  : option (gmap string string) :=
  match card_name with
  | PStr s => card_meanings !! s
  | _ => None
  end.

(** [d.get(key, default)] *)
Definition dict_get {V} (d : gmap string V) (key : string) (default : V) : V :=
  match d !! key with
  | Some v => v
  | None => default
  end.

(** One pass of the loop body: the two lines appended for [card_info]. *)
Definition card_lines (card_meanings : gmap string (gmap string string))
    (card_info : gmap string pyval) : result (string * string) :=
  match card_info !! "name" with
  | None => Raise (KeyError "name")
  | Some card_name =>
      let is_reversed := dict_get card_info "is_reversed" (PBool false) in
      match find_meaning card_name card_meanings with
      | Some meaning_data =>
          let '(meaning, position) :=
            if truthy is_reversed
            then (dict_get meaning_data "reversed" "逆位含义未知", "逆位")
            else (dict_get meaning_data "upright" "正位含义未知", "正位") in
          let symbolism := dict_get meaning_data "symbolism" "象征意义未知" in
          let card_detail :=
            "**" +:+ str card_name +:+ "** (" +:+ position +:+ "): " +:+ meaning in
          Ok (card_detail, "**" +:+ str card_name +:+ "**: " +:+ symbolism)
      | None =>
          let position := if truthy is_reversed then "逆位" else "正位" in
          let card_detail :=
            "**" +:+ str card_name +:+ "** (" +:+ position +:+ "): 含义待解读" in
          Ok (card_detail, "**" +:+ str card_name +:+ "**: 象征意义待解读")
      end
  end.

(** The [for card_info in cards] loop over the two accumulated lists. *)
Fixpoint resolve_loop (card_meanings : gmap string (gmap string string))
    (cards : list (gmap string pyval))
    (card_details_list symbolism_list : list string)
  : result (list string * list string) :=
  match cards with
  | [] => Ok (card_details_list, symbolism_list)
  | card_info :: rest =>
      bind (card_lines card_meanings card_info) (λ '(card_detail, symbolism_line),
        resolve_loop card_meanings rest
          (card_details_list ++ [card_detail])
          (symbolism_list ++ [symbolism_line]))
  end.

Definition prepare_prompt_input (input : input_data)
    (card_meanings : gmap string (gmap string string)) : result prompt_input :=
  bind (resolve_loop card_meanings (cards input) [] []) (λ '(card_details_list, symbolism_list),
    Ok {| card_details := join (String newline "") card_details_list;
          pi_context := context input;
          symbolism := join (String newline "") symbolism_list |}).

(** *** validate_card_data *)

(** The part of a DataFrame the check looks at: its column labels and the
    number of its rows.  [df.empty] holds when either axis has length 0. *)
Record dataframe : Type := {
  df_columns : list string;
  df_rows : nat
}.

Definition df_empty (df : dataframe) : bool :=
  bool_decide (df_columns df = []) || bool_decide (df_rows df = 0%nat).

Definition validate_card_data (df : dataframe) (required_columns : list string)
  : bool * list st_event :=
  let missing_columns :=
    filter (λ col, col ∉ df_columns df) required_columns in
  match missing_columns with
  | _ :: _ =>
      (false, [StError ("数据文件缺少必需的列: " +:+ join ", " missing_columns)])
  | [] =>
      if df_empty df then (false, [StError "数据文件为空"])
      else (true, [])
  end.

(** *** format_card_image_path and display_error_message *)

(** [s.replace(old, new)] for a one-character [old]. *)
Fixpoint replace_char (old : ascii) (new : string) (s : string) : string :=
  match s with
  | EmptyString => EmptyString
  | String c s' =>
      if Ascii.eqb c old then new +:+ replace_char old new s'
      else String c (replace_char old new s')
  end.

Section WithLower.
(** [str.lower], which follows the Unicode case tables of the runtime. *)
Variable lower : string → string.

Definition format_card_image_path (card_name : string) : string :=
  let formatted_name := replace_char "-" "" (replace_char " " "" (lower card_name)) in
  formatted_name +:+ ".jpg".

(** [display_error_message(error)], given [type(error).__name__] and
    [str(error)]. *)
Definition display_error_message (error_type error_text : string) : list st_event :=
  if containsb "ModuleNotFoundError" error_text then
    [StError ("🔧 模块导入错误: " +:+ error_text);
     StInfo "💡 请检查依赖是否正确安装：pip install -r qianwen_requirements.txt"]
  else if containsb "FileNotFoundError" error_text then
    [StError ("📁 文件未找到: " +:+ error_text);
     StInfo "💡 请确保所需的数据文件和图片文件存在于正确的路径"]
  else if containsb "API" error_text || containsb "key" (lower error_text) then
    [StError ("🔑 API配置错误: " +:+ error_text);
     StInfo "💡 请检查.env文件中的DASHSCOPE_API_KEY配置"]
  else
    [StError ("❌ " +:+ error_type +:+ ": " +:+ error_text);
     StInfo "💡 请检查控制台输出获取更多错误信息"].

End WithLower.

End Helpers.

(** ** helpers/qwen_langchain_improved.py *)

Module Qwen.

(** LangChain messages; [OtherMessage] stands for any other object, carried
    by its [str()]. *)
Inductive message : Type :=
| SystemMessage (content : string)
| HumanMessage (content : string)
| AIMessage (content : string)
| OtherMessage (text : string).

Record QwenLLMImproved : Type := {
  api_key : string;
  model : string;
  temperature : Q;
  top_p : Q;
  max_tokens : Z
}.

(** [not v] for an optional string: [None] and [''] are falsy. *)
Definition is_falsy (v : option string) : bool :=
  match v with
  | None => true
  | Some s => String.eqb s ""
  end.

(** [a or b] *)
Definition py_or (a b : option string) : option string :=
  if is_falsy a then b else a.

(** [QwenLLMImproved.__init__]; [env_key] is [os.getenv("DASHSCOPE_API_KEY")]. *)
Definition __init__ (api_key_arg : option string) (model_arg : string)
    (temperature_arg top_p_arg : Q) (max_tokens_arg : Z)
    (env_key : option string) : result QwenLLMImproved :=
  let self_api_key := py_or api_key_arg env_key in
  match self_api_key with
  | Some k =>
      if is_falsy self_api_key
      then Raise (ValueError "通义千问API密钥未配置，请提供api_key参数或设置DASHSCOPE_API_KEY环境变量")
      else Ok {| api_key := k; model := model_arg; temperature := temperature_arg;
                 top_p := top_p_arg; max_tokens := max_tokens_arg |}
  | None =>
      Raise (ValueError "通义千问API密钥未配置，请提供api_key参数或设置DASHSCOPE_API_KEY环境变量")
  end.

(** The request handed to [dashscope.Generation.call]. *)
Record qwen_message : Type := { role : string; content : string }.

Record request : Type := {
  req_model : string;
  req_messages : list qwen_message;
  req_temperature : Q;
  req_top_p : Q;
  req_max_tokens : Z;
  req_repetition_penalty : Q;
  req_stream : bool;
  req_result_format : string
}.

(** The two keyword arguments [_generate] reads from [**kwargs]. *)
Record kwargs : Type := {
  kw_max_tokens : option Z;
  kw_repetition_penalty : option Q
}.

(** The response object: a status code and a dict-like body in which each
    key may be absent; the value under ['output'] is [None] or a dict. *)
Record choice_message : Type := { msg_content : option string }.
Record choice : Type := { choice_msg : option choice_message }.
Inductive output : Type :=
| OutputNone
| OutputDict (choices : option (list choice)).
Record response : Type := {
  status_code : Z;
  resp_message : option string;
  resp_output : option output
}.

(** What the backend call does: it returns a response or raises. *)
Inductive call_outcome : Type :=
| Returned (r : response)
| Raised (e : exn).

Record Generation : Type := { text : string }.
Record LLMResult : Type := { generations : list (list Generation) }.

Definition _convert_messages_to_qwen_format (messages : list message) : list qwen_message :=
  map (λ m,
         match m with
         | SystemMessage c => {| role := "system"; content := c |}
         | HumanMessage c => {| role := "user"; content := c |}
         | AIMessage c => {| role := "assistant"; content := c |}
         | OtherMessage s => {| role := "user"; content := s |}
         end) messages.

(** [status_code == 200 and 'output' in response and 'choices' in response['output']] *)
Definition is_success (response : response) : result bool :=
  if decide (status_code response = 200) then
    match resp_output response with
    | None => Ok false
    | Some OutputNone => Raise (TypeError "argument of type 'NoneType' is not iterable")
    | Some (OutputDict None) => Ok false
    | Some (OutputDict (Some _)) => Ok true
    end
  else Ok false.

(** [response['output']['choices'][0]['message']['content']] *)
Definition first_content (response : response) : result string :=
  match resp_output response with
  | None => Raise (KeyError "output")
  | Some OutputNone => Raise (TypeError "'NoneType' object is not subscriptable")
  | Some (OutputDict None) => Raise (KeyError "choices")
  | Some (OutputDict (Some [])) => Raise (IndexError "list index out of range")
  | Some (OutputDict (Some (c :: _))) =>
      match choice_msg c with
      | None => Raise (KeyError "message")
      | Some m =>
          match msg_content m with
          | None => Raise (KeyError "content")
          | Some s => Ok s
          end
      end
  end.

(** The arguments of [dashscope.Generation.call]. *)
Definition call_arguments (self : QwenLLMImproved) (messages : list message)
    (kw : kwargs) : request :=
  let qwen_messages := _convert_messages_to_qwen_format messages in
  {| req_model := model self;
     req_messages := qwen_messages;
     req_temperature := temperature self;
     req_top_p := top_p self;
     req_max_tokens := default (max_tokens self) (kw_max_tokens kw);
     req_repetition_penalty := default (1 # 1)%Q (kw_repetition_penalty kw);
     req_stream := false;
     req_result_format := "message" |}.

(** The body of the [try] block of [_generate]. *)
Definition generate_try (self : QwenLLMImproved) (messages : list message)
    (kw : kwargs) (call : request → call_outcome) : result (list Generation) :=
  let outcome := call (call_arguments self messages kw) in
  match outcome with
  | Raised e => Raise e
  | Returned response =>
      bind (is_success response) (λ success,
        if success then
          bind (first_content response) (λ content, Ok [{| text := content |}])
        else
          let error_msg :=
            "API调用失败: HTTP状态码 " +:+ str_of_Z (status_code response)
            +:+ ", 错误信息: " +:+ default "未知错误" (resp_message response) in
          Ok [{| text := error_msg |}])
  end.

(** [_generate]: every [Exception] of the [try] block is turned into text. *)
Definition _generate (self : QwenLLMImproved) (messages : list message)
    (kw : kwargs) (call : request → call_outcome) : result LLMResult :=
  let generations :=
    match generate_try self messages kw call with
    | Ok generations => generations
    | Raise e => [{| text := "API调用异常: " +:+ exn_str e |}]
    end in
  Ok {| generations := [generations] |}.

(** [invoke] on a list of messages. *)
Definition invoke (self : QwenLLMImproved) (messages : list message)
    (kw : kwargs) (call : request → call_outcome) : result message :=
  bind (_generate self messages kw call) (λ result,
    match generations result with
    | (g :: _) :: _ => Ok (AIMessage (text g))
    | _ => Ok (AIMessage "生成响应失败")
    end).

(** A call without keyword arguments. *)
Definition empty_kwargs : kwargs :=
  {| kw_max_tokens := None; kw_repetition_penalty := None |}.

Definition _llm_type (self : QwenLLMImproved) : string := "qwen".

(** The three kinds of [input_data] that [invoke] tells apart: a string, a
    list of messages, and any other object, carried by its [str()]. *)
Inductive invoke_input : Type :=
| InputStr (s : string)
| InputMessages (messages : list message)
| InputOther (repr : string).

Definition input_messages (input_data : invoke_input) : list message :=
  match input_data with
  | InputStr s => [HumanMessage s]
  | InputMessages messages => messages
  | InputOther repr => [HumanMessage repr]
  end.

(** [invoke] on any input. *)
Definition invoke_input_data (self : QwenLLMImproved) (input_data : invoke_input)
    (kw : kwargs) (call : request → call_outcome) : result message :=
  invoke self (input_messages input_data) kw call.

Definition predict (self : QwenLLMImproved) (txt : string)
    (kw : kwargs) (call : request → call_outcome) : result string :=
  bind (_generate self [HumanMessage txt] kw call) (λ result,
    match generations result with
    | (g :: _) :: _ => Ok (text g)
    | _ => Ok "生成响应失败"
    end).

Definition predict_messages (self : QwenLLMImproved) (messages : list message)
    (kw : kwargs) (call : request → call_outcome) : result message :=
  bind (_generate self messages kw call) (λ result,
    match generations result with
    | (g :: _) :: _ => Ok (AIMessage (text g))
    | _ => Ok (AIMessage "生成响应失败")
    end).

(** A prompt of [generate_prompt]: a string, or another object carried by
    its [str()]. *)
Inductive prompt_value : Type :=
| PromptStr (s : string)
| PromptOther (repr : string).

Definition prompt_message (prompt : prompt_value) : list message :=
  match prompt with
  | PromptStr s => [HumanMessage s]
  | PromptOther repr => [HumanMessage repr]
  end.

(** The second loop of [generate_prompt]: one [_generate] per message list. *)
Fixpoint generate_each (self : QwenLLMImproved) (messages : list (list message))
    (kw : kwargs) (call : request → call_outcome) : result (list LLMResult) :=
  match messages with
  | [] => Ok []
  | msg :: rest =>
      bind (_generate self msg kw call) (λ r,
        bind (generate_each self rest kw call) (λ results, Ok (r :: results)))
  end.

Definition generate_prompt (self : QwenLLMImproved) (prompts : list prompt_value)
    (kw : kwargs) (call : request → call_outcome) : result (list LLMResult) :=
  let messages := map prompt_message prompts in
  generate_each self messages kw call.

End Qwen.

(** ** qianwen_app.py *)

Module App.
Import Helpers Qwen.

(** *** The client chosen at start-up *)

Inductive llm : Type :=
| Live (client : QwenLLMImproved)
| Fallback (stub : FallbackLLM).

(** The [try] block that configures the model; [env_key] is the value of
    [DASHSCOPE_API_KEY] after [load_dotenv()]. *)
Definition configure (env_key : option string) : result QwenLLMImproved :=
  let api_key := env_key in
  if is_falsy api_key then
    Raise (ValueError "通义千问API密钥未配置，请确保.env文件中包含DASHSCOPE_API_KEY")
  else
    Qwen.__init__ api_key "qwen-plus" (8 # 10)%Q (8 # 10)%Q 2000 env_key.

(** [try: ... except Exception as e: llm = hf.FallbackLLM(str(e))] *)
Definition init_llm (env_key : option string) : llm :=
  match configure env_key with
  | Ok client => Live client
  | Raise e => Fallback {| error_message := exn_str e |}
  end.

(** *** The card table built from the CSV rows *)

(** A row after column normalisation; [None] is a cell for which
    [pd.notna] is false. *)
Record csv_row : Type := {
  row_card : string;
  row_upright : option string;
  row_reversed : option string;
  row_symbolism : option string
}.

Section Loader.
(** [str.strip] *)
Variable strip : string → string.

(** [str(cell).strip() if pd.notna(cell) else ''] *)
Definition cell_text (cell : option string) : string :=
  match cell with
  | Some s => strip s
  | None => ""
  end.

Definition row_entry (row : csv_row) : gmap string string :=
  <["upright" := cell_text (row_upright row)]>
    (<["reversed" := cell_text (row_reversed row)]>
      (<["symbolism" := cell_text (row_symbolism row)]> ∅)).

(** The [for _, row in df.iterrows()] loop filling [card_meanings]. *)
Definition load_card_meanings (rows : list csv_row) : gmap string (gmap string string) :=
  foldl (λ card_meanings row, <[strip (row_card row) := row_entry row]> card_meanings)
        ∅ rows.

End Loader.

(** *** Templates *)

(** [str.format] with keyword arguments, for the replacement fields the two templates use:
    literal text, the escapes [{{] and [}}], and fields that name a keyword.
    A field with a conversion, a format spec, an attribute or an index is
    outside this fragment and reported as [OtherError].  A field name made of
    decimal digits is a position, and the call passes no positional
    argument; a name with an ASCII character that is no digit is a keyword;
    a name of digits and bytes beyond ASCII only, which may spell a number in
    another script, is left outside the fragment as well. *)
Definition is_brace_open (c : ascii) : bool := Ascii.eqb c "{".
Definition is_brace_close (c : ascii) : bool := Ascii.eqb c "}".
Definition is_field_syntax (c : ascii) : bool :=
  Ascii.eqb c "!" || Ascii.eqb c ":" || Ascii.eqb c "." || Ascii.eqb c "["
  || Ascii.eqb c "]" || Ascii.eqb c "{".

Definition is_ascii_digit (c : ascii) : bool :=
  (48 <=? N_of_ascii c)%N && (N_of_ascii c <=? 57)%N.

Fixpoint all_digits (s : string) : bool :=
  match s with
  | EmptyString => true
  | String c s' => is_ascii_digit c && all_digits s'
  end.

(** Some character of the name is ASCII and no digit. *)
Fixpoint has_ascii_non_digit (s : string) : bool :=
  match s with
  | EmptyString => false
  | String c s' =>
      ((N_of_ascii c <? 128)%N && negb (is_ascii_digit c)) || has_ascii_non_digit s'
  end.

(** The number that a name of digits spells, read from the left. *)
Fixpoint digits_value (acc : N) (s : string) : N :=
  match s with
  | EmptyString => acc
  | String c s' => digits_value (acc * 10 + (N_of_ascii c - 48))%N s'
  end.

(** [PY_SSIZE_T_MAX] of a 64-bit build. *)
Definition PY_SSIZE_T_MAX : N := (2 ^ 63 - 1)%N.

Definition field_value (kw : string → option string) (name : string) : result string :=
  match name with
  | EmptyString =>
      Raise (IndexError "Replacement index 0 out of range for positional args tuple")
  | _ =>
      if all_digits name then
        if (digits_value 0 name <=? PY_SSIZE_T_MAX)%N then
          Raise (IndexError ("Replacement index "
                             +:+ str_of_Z (Z.of_N (digits_value 0 name))
                             +:+ " out of range for positional args tuple"))
        else Raise (ValueError "Too many decimal digits in format string")
      else if has_ascii_non_digit name then
        match kw name with
        | Some v => Ok v
        | None => Raise (KeyError name)
        end
      else Raise (OtherError "replacement field outside the modelled fragment")
  end.

(** [field] is [None] in literal text and [Some name] inside a field whose
    name read so far is [name]. *)
Fixpoint format_from (kw : string → option string) (field : option string)
    (template : string) : result string :=
  match field, template with
  | None, EmptyString => Ok ""
  | None, String c rest =>
      if is_brace_open c then
        match rest with
        | String c' rest' =>
            if is_brace_open c'
            then bind (format_from kw None rest') (λ r, Ok (String "{" r))
            else format_from kw (Some "") rest
        | EmptyString => Raise (ValueError "Single '{' encountered in format string")
        end
      else if is_brace_close c then
        match rest with
        | String c' rest' =>
            if is_brace_close c'
            then bind (format_from kw None rest') (λ r, Ok (String "}" r))
            else Raise (ValueError "Single '}' encountered in format string")
        | EmptyString => Raise (ValueError "Single '}' encountered in format string")
        end
      else bind (format_from kw None rest) (λ r, Ok (String c r))
  | Some name, EmptyString => Raise (ValueError "expected '}' before end of string")
  | Some name, String c rest =>
      if is_brace_close c then
        bind (field_value kw name) (λ v,
          bind (format_from kw None rest) (λ r, Ok (v +:+ r)))
      else if is_field_syntax c then
        Raise (OtherError "replacement field outside the modelled fragment")
      else format_from kw (Some (name +:+ String c "")) rest
  end.

Definition format (template : string) (kw : string → option string) : result string :=
  format_from kw None template.

Definition system_message_template : string :=
"
你是一位神秘的塔罗牌解读师，拥有深厚的象征学和心理学知识。
请基于提供的含义分析以下塔罗牌（同时考虑它们是否为逆位）：
{card_details}
请特别注意以下几个方面：
- 详细分析每张牌的含义（正位或逆位）。
- 然后根据卡牌提供一个与上下文相关的总体解释：{context}。
- 保持神秘，并基于特定列 {symbolism} 提供与卡牌象征意义相关的解释信息。
- 在解读结束时，总是提供改善或处理当前情况的建议。建议也请基于你的心理学知识。
".

(** The literal text of [system_message_template] around its three fields. *)
Definition system_text_0 : string :=
"
你是一位神秘的塔罗牌解读师，拥有深厚的象征学和心理学知识。
请基于提供的含义分析以下塔罗牌（同时考虑它们是否为逆位）：
".

Definition system_text_1 : string :=
"
请特别注意以下几个方面：
- 详细分析每张牌的含义（正位或逆位）。
- 然后根据卡牌提供一个与上下文相关的总体解释：".

Definition system_text_2 : string :=
"。
- 保持神秘，并基于特定列 ".

Definition system_text_3 : string :=
" 提供与卡牌象征意义相关的解释信息。
- 在解读结束时，总是提供改善或处理当前情况的建议。建议也请基于你的心理学知识。
".

(** [PromptTemplate.from_template("{context}")] and its [format]. *)
Definition prompt_analysis : string := "{context}".

(** The keyword arguments unpacked from the dict returned by
    [prepare_prompt_input]. *)
Definition keywords (x : prompt_input) (key : string) : option string :=
  if String.eqb key "card_details" then Some (card_details x)
  else if String.eqb key "context" then Some (pi_context x)
  else if String.eqb key "symbolism" then Some (symbolism x)
  else None.

(** [format(context=x['context'])] *)
Definition context_keyword (x : prompt_input) (key : string) : option string :=
  if String.eqb key "context" then Some (pi_context x) else None.

(** The third stage of the chain: the two messages handed to the model. *)
Definition build_messages (x : prompt_input) : result (list message) :=
  bind (format system_message_template (keywords x)) (λ system_text,
    bind (format prompt_analysis (context_keyword x)) (λ user_text,
      Ok [SystemMessage system_text; HumanMessage user_text])).

(** The [analyzer] chain up to the messages it passes to [llm]. *)
Definition analyzer_messages (input : input_data)
    (card_meanings : gmap string (gmap string string)) : result (list message) :=
  bind (prepare_prompt_input input card_meanings) build_messages.

(** *** Card captions *)

(** ['is_reversed' in card_info] *)
Definition has_key (card_info : gmap string pyval) (key : string) : bool :=
  bool_decide (is_Some (card_info !! key)).

Definition reversed_label (card_info : gmap string pyval) : string :=
  if has_key card_info "is_reversed" then "(R)" else "".

(** [caption = f"{card_info['name']} {reversed_label}"] *)
Definition caption (card_info : gmap string pyval) : result string :=
  match card_info !! "name" with
  | None => Raise (KeyError "name")
  | Some name => Ok (str name +:+ " " +:+ reversed_label card_info)
  end.

(** [if card_info.get('is_reversed', False): img = img.rotate(180)] *)
Definition is_rotated (card_info : gmap string pyval) : bool :=
  truthy (dict_get card_info "is_reversed" (PBool false)).

(** *** The chain with a configured client *)

(** [analyzer.invoke(input)] when [llm] is the configured client: the
    messages go to [llm.invoke] with no keyword arguments. *)
Definition analyzer_invoke (client : QwenLLMImproved)
    (card_meanings : gmap string (gmap string string))
    (call : request → call_outcome) (input : input_data) : result message :=
  bind (analyzer_messages input card_meanings) (λ messages,
    Qwen.invoke client messages empty_kwargs call).

(** *** The button handler *)

(** [Series.unique()]: the values in order of first appearance. *)
Fixpoint unique (l : list string) : list string :=
  match l with
  | [] => []
  | x :: l' => x :: filter (λ y, y ≠ x) (unique l')
  end.

(** [df['card'].unique().tolist()] *)
Definition card_names_in_dataset (rows : list csv_row) : list string :=
  unique (map row_card rows).

(** The options of the [st.selectbox] for the number of cards. *)
Inductive num_choice : Type := Three | Five | Seven.

Definition num_cards_of (choice : num_choice) : Z :=
  match choice with
  | Three => 3
  | Five => 5
  | Seven => 7
  end.

(** What [Image.open(image_path)] does. *)
Inductive image_open : Type :=
| Opened
| FileNotFound
| OpenFailed (e : exn).

(** The body of the loop over the drawn cards: the picture with its caption,
    or the notice that stands in for a missing file. *)
Definition render_card (open_image : string → image_open)
    (card_info : gmap string pyval) : result st_event :=
  match card_info !! "name" with
  | None => Raise (KeyError "name")
  | Some name =>
      let image_filename := str name in
      let image_path := "images/" +:+ image_filename in
      let label := reversed_label card_info in
      let caption_text := str name +:+ " " +:+ label in
      match open_image image_path with
      | Opened => Ok (StImage image_path (is_rotated card_info) caption_text 150)
      | FileNotFound =>
          Ok (StInfo ("符号：" +:+ str name +:+ " " +:+ label
                      +:+ " (在 " +:+ image_path +:+ " 未找到图片)"))
      | OpenFailed e => Raise e
      end
  end.

(** The loop: what was put on the page, and the exception that stopped it. *)
Fixpoint render_cards (open_image : string → image_open)
    (drawn_cards_list : list (gmap string pyval)) : list st_event * option exn :=
  match drawn_cards_list with
  | [] => ([], None)
  | card_info :: rest =>
      match render_card open_image card_info with
      | Raise e => ([], Some e)
      | Ok event =>
          let '(events, stopped) := render_cards open_image rest in
          (event :: events, stopped)
      end
  end.

Section Handler.
Context {G : Type} `{RandomSource G}.
(** [analyzer.invoke(...)], reduced to the text that [st.write] shows. *)
Variable analyze : input_data → result string.
Variable open_image : string → image_open.

(** The block under [if st.button(...)]. *)
Definition on_click (rows : list csv_row) (choice : num_choice)
    (context_question : string) (g : G) : list st_event * G :=
  if String.eqb context_question "" then
    ([StWarning "为了获得更精确的解读，请输入您的问题或背景信息。"], g)
  else
    let card_names := card_names_in_dataset rows in
    match generate_random_draw (num_cards_of choice) card_names g with
    | (Raise e, g') => ([StError ("发生错误：" +:+ exn_str e)], g')
    | (Ok drawn_cards_list, g') =>
        let head := [StSubheader "✨ 您的卡牌已揭晓："; StMarkdown "---"] in
        match render_cards open_image drawn_cards_list with
        | (events, Some e) =>
            ((head ++ events ++ [StError ("发生错误：" +:+ exn_str e)])%list, g')
        | (events, None) =>
            match analyze {| cards := drawn_cards_list; context := context_question |} with
            | Raise e =>
                ((head ++ events
                  ++ [StMarkdown "---"; StError ("发生错误：" +:+ exn_str e)])%list, g')
            | Ok analysis =>
                ((head ++ events
                  ++ [StMarkdown "---"; StSubheader "📜 解读结果："; StWrite analysis])%list,
                 g')
            end
        end
    end.

End Handler.

(** The text of the analysis that [st.write] shows: the content of the
    message the chain returns. *)
Definition analysis_text (client : QwenLLMImproved)
    (card_meanings : gmap string (gmap string string))
    (call : request → call_outcome) (input : input_data) : result string :=
  bind (analyzer_invoke client card_meanings call input) (λ analysis_result,
    match analysis_result with
    | SystemMessage c | HumanMessage c | AIMessage c => Ok c
    | OtherMessage repr => Ok repr
    end).

End App.

(** ** Scenarios

    The inputs of the end-to-end scenarios and of the examples below. *)

Module Scenario.
Import Qwen.

(** The deck and the draw of the first scenario: the Fool, upright. *)
Definition fool_deck : gmap string (gmap string string) :=
  {[ "Fool" := <["upright" := "new beginnings"]>
                 (<["reversed" := "recklessness"]> (<["symbolism" := "innocence"]> ∅)) ]}.

Definition fool_upright : gmap string pyval :=
  <["name" := PStr "Fool"]> (<["is_reversed" := PBool false]> ∅).

(** A deck whose upright text is the empty string, as the loader stores it
    for an empty cell. *)
Definition blank_deck : gmap string (gmap string string) :=
  {[ "Fool" := <["upright" := ""]>
                 (<["reversed" := "recklessness"]> (<["symbolism" := "innocence"]> ∅)) ]}.

(** A configured client, a call without keyword arguments, and the response
    of the service to a bad key. *)
Definition sample_client : QwenLLMImproved :=
  {| api_key := "sk-test"; model := "qwen-plus"; temperature := (8 # 10)%Q;
     top_p := (8 # 10)%Q; max_tokens := 2000 |}.

Definition no_kwargs : kwargs := {| kw_max_tokens := None; kw_repetition_penalty := None |}.

Definition unauthorized : response :=
  {| status_code := 401; resp_message := Some "Invalid API-key provided."; resp_output := None |}.

End Scenario.

(** ** Notions used in the statements *)

Module Notions.
Import Helpers Qwen App.

(** A drawn card, as [draw_card] builds it. *)
Definition drawn_card (nm : string) (b : bool) : gmap string pyval :=
  <["name" := PStr nm]> (<["is_reversed" := PBool b]> ∅).

(** What the page shows for a drawn card: the picture, turned when the card
    is reversed, or the notice that the file is missing. *)
Definition shown_for (nm : string) (b : bool) (event : st_event) : Prop :=
  event = StImage ("images/" +:+ nm) b (nm +:+ " (R)") 150
  ∨ event = StInfo ("符号：" +:+ nm +:+ " (R) (在 images/" +:+ nm +:+ " 未找到图片)").

(** Text without a brace. *)
Definition brace_free (s : string) : Prop :=
  containsb "{" s = false ∧ containsb "}" s = false.


(** [message.content], or the [str()] of another object. *)
Definition message_text (m : message) : string :=
  match m with
  | SystemMessage c | HumanMessage c | AIMessage c => c
  | OtherMessage s => s
  end.

(** Three rows of a card file, and a folder without pictures. *)
Definition three_rows : list csv_row :=
  [ {| row_card := "Fool"; row_upright := Some "new beginnings";
       row_reversed := Some "recklessness"; row_symbolism := Some "innocence" |};
    {| row_card := "Magician"; row_upright := Some "willpower";
       row_reversed := None; row_symbolism := Some "the wand" |};
    {| row_card := "Priestess"; row_upright := Some "intuition";
       row_reversed := Some "secrets"; row_symbolism := None |} ].

Definition no_pictures (path : string) : image_open := FileNotFound.

End Notions.

(** ** A replayable generator

    A generator that replays a tape of raw words.  [sample_pool] is the pool
    branch of CPython's [Random.sample]: draw [j] below the number of cards
    left, take [pool[j]], and move the last card left into the vacancy.  It
    shows that the contract of [RandomSource] can be met and lets the draw be
    run on concrete inputs. *)

Module Tape.

(** The next raw word of the tape; an exhausted tape reads as zeros. *)
Definition next_word (g : list N) : N * list N :=
  match g with
  | [] => (0%N, [])
  | w :: g' => (w, g')
  end.

(** [_randbelow(n)], here the raw word reduced below [n]. *)
Definition randbelow (n : nat) (g : list N) : nat * list N :=
  let '(w, g') := next_word g in (N.to_nat (w mod N.of_nat n), g').

(** The loop [for i in range(k)] over the shrinking pool. *)
Fixpoint sample_pool {A} (pool : list A) (k : nat) (g : list N) : list A * list N :=
  match k with
  | O => ([], g)
  | S k' =>
      let n := length pool in
      let '(j, g1) := randbelow n g in
      match pool !! j, pool !! pred n with
      | Some x, Some y =>
          let '(rest, g2) := sample_pool (take (pred n) (<[j := y]> pool)) k' g1 in
          (x :: rest, g2)
      | _, _ => ([], g1)
      end
  end.

(** [sample] with its range check. *)
Definition tape_sample {A} (population : list A) (k : Z) (g : list N)
  : result (list A) * list N :=
  if decide (0 ≤ k ≤ Z.of_nat (length population)) then
    let '(r, g') := sample_pool population (Z.to_nat k) g in (Ok r, g')
  else (Raise (ValueError "Sample larger than population or is negative"), g).

(** [random()]: the numerator of a double in the unit interval. *)
Definition tape_random (g : list N) : N * list N :=
  let '(w, g') := next_word g in ((w mod 2 ^ 53)%N, g').

(** One step takes [x] out of the pool and keeps all the other cards. *)
Lemma pool_step_perm {A} (pool : list A) (j : nat) (x y : A) :
  pool !! j = Some x →
  pool !! pred (length pool) = Some y →
  pool ≡ₚ x :: take (pred (length pool)) (<[j := y]> pool).
Proof.
  induction pool as [|a pool _] using rev_ind; [done|].
  rewrite length_app, Nat.add_1_r. simpl.
  intros Hj Hy.
  rewrite lookup_app_r in Hy by lia. rewrite Nat.sub_diag in Hy. simplify_eq/=.
  destruct (decide (j = length pool)) as [->|Hne].
  - rewrite lookup_app_r in Hj by lia. rewrite Nat.sub_diag in Hj. simplify_eq/=.
    rewrite list_insert_id by (rewrite lookup_app_r by lia; by rewrite Nat.sub_diag).
    rewrite take_app_length. symmetry. apply Permutation_cons_append.
  - assert (j < length pool)%nat as Hlt.
    { apply lookup_lt_Some in Hj. rewrite length_app in Hj. simpl in Hj. lia. }
    rewrite lookup_app_l in Hj by done.
    rewrite insert_app_l by done.
    rewrite take_app_length' by (by rewrite length_insert).
    rewrite insert_take_drop by done.
    rewrite <- (take_drop_middle pool j x Hj) at 1.
    rewrite <- (Permutation_middle (take j pool) (drop (S j) pool) x).
    rewrite <- (Permutation_middle (take j pool) (drop (S j) pool) y).
    simpl. apply perm_skip.
    symmetry. apply Permutation_cons_append.
Qed.

(** From a duplicate-free pool the loop takes [k] distinct members. *)
Lemma sample_pool_distinct {A} (k : nat) : ∀ (pool : list A) (g : list N),
  NoDup pool → (k ≤ length pool)%nat →
  NoDup (sample_pool pool k g).1
  ∧ length (sample_pool pool k g).1 = k
  ∧ (sample_pool pool k g).1 ⊆ pool.
Proof.
  induction k as [|k IH]; intros pool g Hnd Hk; simpl.
  { split; [constructor|]. split; [done|]. set_solver. }
  unfold randbelow. destruct (next_word g) as [w g1].
  set (j := N.to_nat (w mod N.of_nat (length pool))).
  assert (j < length pool)%nat as Hj.
  { pose proof (N.mod_lt w (N.of_nat (length pool))). lia. }
  destruct (lookup_lt_is_Some_2 pool j Hj) as [x Hx].
  destruct (lookup_lt_is_Some_2 pool (pred (length pool)) ltac:(lia)) as [y Hy].
  rewrite Hx, Hy.
  pose proof (pool_step_perm pool j x y Hx Hy) as Hperm.
  set (pool' := take (pred (length pool)) (<[j:=y]> pool)) in *.
  assert (NoDup (x :: pool')) as Hnd' by (by rewrite <- Hperm).
  apply NoDup_cons in Hnd' as [Hx' Hnd'].
  assert (length pool' = pred (length pool)) as Hlen.
  { apply Permutation_length in Hperm. simpl in Hperm. lia. }
  destruct (IH pool' g1 Hnd' ltac:(lia)) as (IH1 & IH2 & IH3).
  destruct (sample_pool pool' k g1) as [rest g2]. simpl in *.
  split; [|split].
  - apply NoDup_cons. split; [|done]. intros Hin. apply Hx'. by apply IH3.
  - by rewrite IH2.
  - intros z Hz. rewrite Hperm.
    apply elem_of_cons in Hz as [->|Hz]; [left|right; by apply IH3].
Qed.

(** The loop picks by position only: on two pools related item by item it
    returns related items and leaves the same tape. *)
Lemma sample_pool_related {A B} (R : A → B → Prop) (k : nat) :
  ∀ (pool1 : list A) (pool2 : list B) (g : list N),
    Forall2 R pool1 pool2 →
    Forall2 R (sample_pool pool1 k g).1 (sample_pool pool2 k g).1
    ∧ (sample_pool pool1 k g).2 = (sample_pool pool2 k g).2.
Proof.
  induction k as [|k IH]; intros pool1 pool2 g HR; simpl; [by split|].
  rewrite <- (Forall2_length _ _ _ HR).
  unfold randbelow. destruct (next_word g) as [w g1].
  set (j := N.to_nat (w mod N.of_nat (length pool1))).
  destruct (pool1 !! j) as [x1|] eqn:Hx1.
  2:{ assert (pool2 !! j = None) as ->; [|by split].
      apply lookup_ge_None. rewrite <- (Forall2_length _ _ _ HR).
      by apply lookup_ge_None. }
  destruct (Forall2_lookup_l _ _ _ _ _ HR Hx1) as (x2 & -> & Hxx).
  destruct (pool1 !! pred (length pool1)) as [y1|] eqn:Hy1.
  2:{ assert (pool2 !! pred (length pool1) = None) as ->; [|by split].
      apply lookup_ge_None. rewrite <- (Forall2_length _ _ _ HR).
      by apply lookup_ge_None. }
  destruct (Forall2_lookup_l _ _ _ _ _ HR Hy1) as (y2 & -> & Hyy).
  assert (Forall2 R (take (pred (length pool1)) (<[j:=y1]> pool1))
                    (take (pred (length pool1)) (<[j:=y2]> pool2))) as HR'.
  { apply Forall2_take. by apply Forall2_insert. }
  destruct (IH _ _ g1 HR') as [IH1 IH2].
  destruct (sample_pool (take _ (<[j:=y1]> pool1)) k g1) as [r1 g2].
  destruct (sample_pool (take _ (<[j:=y2]> pool2)) k g1) as [r2 g2'].
  simpl in *. split; [by constructor|done].
Qed.

(** Sampling the positions themselves gives the positions that were picked. *)
Lemma tape_sample_positions (A : Type) (population : list A) (k : Z) (g : list N) :
  0 ≤ k ≤ Z.of_nat (length population) →
  ∃ (ps : list nat) (g' : list N),
    tape_sample population k g = (Ok (omap (λ p, population !! p) ps), g')
    ∧ NoDup ps
    ∧ length ps = Z.to_nat k
    ∧ Forall (λ p, (p < length population)%nat) ps.
Proof.
  intros Hk. unfold tape_sample. rewrite decide_True by done.
  set (n := length population). set (kn := Z.to_nat k).
  assert (kn ≤ length (seq 0 n))%nat as Hkn by (rewrite length_seq; lia).
  destruct (sample_pool_distinct kn (seq 0 n) g (NoDup_seq 0 n) Hkn) as (Hnd & Hlen & Hsub).
  assert (Forall2 (λ p x, population !! p = Some x) (seq 0 n) population) as HR.
  { apply Forall2_lookup. intros i.
    destruct (population !! i) eqn:Hi.
    - rewrite lookup_seq_lt by (by apply lookup_lt_Some in Hi).
      by constructor.
    - rewrite lookup_seq_ge by (by apply lookup_ge_None in Hi). constructor. }
  destruct (sample_pool_related _ kn _ _ g HR) as [Hrel Hg].
  exists (sample_pool (seq 0 n) kn g).1, (sample_pool population kn g).2.
  destruct (sample_pool population kn g) as [r g']. simpl in *.
  split; [|split; [done|split; [done|]]].
  - f_equal. f_equal. clear -Hrel. induction Hrel as [|p x ps xs Hp _ IH]; [done|].
    subst xs. simpl. by rewrite Hp.
  - apply Forall_forall. intros p Hp. apply Hsub in Hp.
    apply elem_of_seq in Hp. lia.
Qed.

#[export] Instance tape_source : RandomSource (list N) := {
  sample := @tape_sample;
  random := tape_random;
  sample_positions := tape_sample_positions
}.

End Tape.



Import Tape Helpers Qwen App Scenario.

(** * Properties *)

(** ** Text *)

Section Text.

Lemma append_cons (ch : ascii) (a b : string) : String ch a +:+ b = String ch (a +:+ b).
Proof. reflexivity. Qed.

Lemma append_assoc (a b c : string) : (a +:+ b) +:+ c = a +:+ b +:+ c.
Proof. induction a as [|ch a IH]; [done|]. by rewrite !append_cons, IH. Qed.

Lemma append_empty_r (a : string) : a +:+ "" = a.
Proof. induction a as [|ch a IH]; [done|]. by rewrite append_cons, IH. Qed.

Lemma contains_refl (s : string) : contains s s.
Proof. exists "", "". simpl. by rewrite append_empty_r. Qed.

Lemma contains_trans (a b c : string) : contains a b → contains b c → contains a c.
Proof.
  intros (p & q & ->) (p' & q' & ->).
  exists (p' +:+ p), (q +:+ q'). by rewrite !append_assoc.
Qed.

Lemma contains_append_l (a p s : string) : contains a s → contains a (p +:+ s).
Proof. intros (u & v & ->). exists (p +:+ u), v. by rewrite append_assoc. Qed.

Lemma contains_append_r (a s q : string) : contains a s → contains a (s +:+ q).
Proof. intros (u & v & ->). exists u, (v +:+ q). by rewrite !append_assoc. Qed.

Lemma contains_cons (a : string) (c : ascii) (s : string) :
  contains a s → contains a (String c s).
Proof. apply (contains_append_l a (String c "")). Qed.

Lemma starts_with_spec (p s : string) :
  starts_with p s = true ↔ ∃ rest, s = p +:+ rest.
Proof.
  revert s. induction p as [|a p IH]; intros s; simpl.
  { split; [intros _; by exists s|done]. }
  destruct s as [|b s].
  { split; [done|]. by intros [rest ?]. }
  rewrite andb_true_iff, Ascii.eqb_eq, IH. split.
  - intros [-> [rest ->]]. by exists rest.
  - intros [rest [= -> ->]]. split; [done|by exists rest].
Qed.

Lemma containsb_spec (needle hay : string) :
  containsb needle hay = true ↔ contains needle hay.
Proof.
  induction hay as [|c hay IH]; simpl.
  - rewrite orb_false_r, starts_with_spec. split.
    + intros [rest Hrest]. by exists "", rest.
    + intros (a & b & Hab). destruct a; [by exists b|done].
  - rewrite orb_true_iff, starts_with_spec, IH. split.
    + intros [[rest ->]|Hin]; [by exists "", rest|by apply contains_cons].
    + intros (a & b & Hab). destruct a as [|c' a]; simpl in Hab.
      * left. by exists b.
      * right. injection Hab as -> ->. by exists a, b.
Qed.

Lemma not_contains (needle hay : string) :
  containsb needle hay = false → ¬ contains needle hay.
Proof. intros Hb Hc. apply containsb_spec in Hc. congruence. Qed.

(** The first item of a split is a prefix of the text that was split. *)
Lemma split_on_head (sep : ascii) (s l : string) (ls : list string) :
  split_on sep s = l :: ls → ∃ rest, s = l +:+ rest.
Proof.
  revert l ls. induction s as [|c s IH]; intros l ls; simpl.
  { intros [= <- <-]. by exists "". }
  destruct (Ascii.eqb c sep).
  - intros [= <- <-]. by exists (String c s).
  - destruct (split_on sep s) as [|l0 ls0]; intros [= <- <-].
    + exists s. done.
    + destruct (IH l0 ls0 eq_refl) as [rest ->]. by exists rest.
Qed.

(** Every item of a split is a piece of the text that was split. *)
Lemma split_on_contains (sep : ascii) (s l : string) :
  l ∈ split_on sep s → contains l s.
Proof.
  revert l. induction s as [|c s IH]; intros l; simpl.
  { intros ->%list_elem_of_singleton. apply contains_refl. }
  destruct (Ascii.eqb c sep).
  - intros [->|Hl]%elem_of_cons.
    + by exists "", (String c s).
    + apply contains_cons. by apply IH.
  - destruct (split_on sep s) as [|l0 ls] eqn:Hs.
    + intros ->%list_elem_of_singleton. by exists "", s.
    + intros [->|Hl]%elem_of_cons.
      * destruct (split_on_head sep s l0 ls Hs) as [rest ->]. by exists "", rest.
      * apply contains_cons. apply IH. by right.
Qed.

End Text.

(** ** The draw *)

Section DrawProperties.
Context {G : Type} `{RandomSource G}.

(** Members found at distinct positions of a duplicate-free list are
    distinct members of it. *)
Lemma picked_distinct {A} (population : list A) (ps : list nat) :
  NoDup population → NoDup ps →
  Forall (λ p, (p < length population)%nat) ps →
  length (omap (λ p, population !! p) ps) = length ps
  ∧ NoDup (omap (λ p, population !! p) ps)
  ∧ omap (λ p, population !! p) ps ⊆ population.
Proof.
  intros Hpop Hps Hlt. induction ps as [|p ps IH].
  { split; [done|]. split; [constructor|]. intros x Hx. by apply elem_of_nil in Hx. }
  apply NoDup_cons in Hps as [Hp Hps]. apply Forall_cons in Hlt as [Hlt Hrest].
  destruct (IH Hps Hrest) as (IHlen & IHnd & IHsub).
  destruct (lookup_lt_is_Some_2 population p Hlt) as [x Hx].
  assert (omap (λ p, population !! p) (p :: ps)
          = x :: omap (λ p, population !! p) ps) as ->.
  { cbn. by rewrite Hx. }
  split; [cbn; by rewrite IHlen|]. split.
  - apply NoDup_cons. split; [|done].
    intros Hin. apply list_elem_of_omap in Hin as (q & Hq & Hqx).
    by rewrite (NoDup_lookup population p q x Hpop Hx Hqx) in Hp.
  - intros z [->|Hz]%elem_of_cons; [by eapply list_elem_of_lookup_2|by apply IHsub].
Qed.

(** The loop makes one card per selected name, in order, and never fails;
    each card holds its name and a Boolean under [is_reversed]. *)
Lemma for_each_draw_card (selected : list string) (g : G) :
  ∃ (drawn : list (gmap string pyval)) (g' : G),
    for_each selected draw_card g = (Ok drawn, g')
    ∧ Forall2 (λ (c : gmap string pyval) nm,
                 c !! "name" = Some (PStr nm)
                 ∧ ∃ b, c !! "is_reversed" = Some (PBool b)) drawn selected.
Proof.
  revert g. induction selected as [|nm selected IH]; intros g; simpl.
  { by exists [], g. }
  unfold bindM at 1. unfold draw_card at 1. unfold bindM at 1, random_random.
  destruct (random g) as [k g1]. unfold ret at 1.
  unfold bindM at 1. destruct (IH g1) as (drawn & g2 & -> & Hdrawn).
  eexists _, g2. split; [reflexivity|].
  constructor; [|done]. split; [apply lookup_insert_eq|].
  exists (lt_0_3 k). by rewrite lookup_insert_ne.
Qed.

(** The names of the cards made by the loop are the selected names. *)
Lemma drawn_names (drawn : list (gmap string pyval)) (selected : list string) :
  Forall2 (λ (c : gmap string pyval) nm,
             c !! "name" = Some (PStr nm)
             ∧ ∃ b, c !! "is_reversed" = Some (PBool b)) drawn selected →
  (λ c : gmap string pyval, c !! "name") <$> drawn = (λ nm, Some (PStr nm)) <$> selected.
Proof.
  induction 1 as [|c nm drawn selected [Hname _] _ IH]; [done|].
  by rewrite !fmap_cons, Hname, IH.
Qed.

(** C1: with a duplicate-free deck and a positive count within the deck
    size, [generate_random_draw] returns exactly that many cards, whose names
    are pairwise distinct and all come from the deck. *)
Theorem generate_random_draw_distinct (D : list string) (n : Z) (g : G) :
  NoDup D → 0 < n → n ≤ Z.of_nat (length D) →
  ∃ (drawn : list (gmap string pyval)) (names : list string) (g' : G),
    generate_random_draw n D g = (Ok drawn, g')
    ∧ length drawn = Z.to_nat n
    ∧ (λ c : gmap string pyval, c !! "name") <$> drawn = (λ nm, Some (PStr nm)) <$> names
    ∧ NoDup names
    ∧ names ⊆ D.
Proof.
  intros HD Hpos Hle. unfold generate_random_draw.
  rewrite decide_False by lia.
  destruct (sample_positions string D n g ltac:(lia)) as (ps & g1 & Hs & Hps & Hlen & Hlt).
  destruct (picked_distinct D ps HD Hps Hlt) as (Hplen & Hpnd & Hpsub).
  unfold bindM at 1, random_sample. rewrite Hs.
  destruct (for_each_draw_card (omap (λ p, D !! p) ps) g1) as (drawn & g2 & Hdraw & Hdrawn).
  pose proof (drawn_names _ _ Hdrawn) as Hnames.
  unfold bindM. rewrite Hdraw. unfold ret.
  exists drawn, (omap (λ p, D !! p) ps), g2.
  split; [done|]. split; [|done].
  apply (f_equal length) in Hnames. rewrite !length_fmap in Hnames. lia.
Qed.

(** C2: a count above the deck size raises the [ValueError] for too few
    cards; nothing is drawn and the generator is left as it was. *)
Theorem generate_random_draw_insufficient (D : list string) (n : Z) (g : G) :
  n > Z.of_nat (length D) →
  generate_random_draw n D g
  = (Raise (ValueError ("请求的牌数(" +:+ str_of_Z n +:+ ")超过了可用牌数("
                         +:+ str_of_Z (Z.of_nat (length D)) +:+ ")")), g).
Proof. intros Hn. unfold generate_random_draw. by rewrite decide_True. Qed.

(** Every drawn card has the [is_reversed] key, so every caption of a draw
    carries the marker. *)
Lemma drawn_cards_all_marked (D : list string) (n : Z) (g g' : G)
    (drawn : list (gmap string pyval)) :
  generate_random_draw n D g = (Ok drawn, g') →
  Forall (λ c, ∃ name, c !! "name" = Some name ∧ caption c = Ok (str name +:+ " (R)")) drawn.
Proof.
  unfold generate_random_draw. destruct (decide _); [done|].
  unfold bindM at 1. destruct (random_sample D n g) as [[selected|e] g1]; [|done].
  destruct (for_each_draw_card selected g1) as (drawn' & g2 & Hdraw & Hdrawn).
  unfold bindM. rewrite Hdraw. unfold ret. intros [= <- <-].
  clear Hdraw. induction Hdrawn as [|c nm drawn' selected [Hname [b Hrev]] _ IH];
    constructor; [|done].
  exists (PStr nm). split; [done|].
  unfold caption, reversed_label, has_key. rewrite Hname, Hrev.
  by rewrite bool_decide_true.
Qed.

End DrawProperties.

(** Two runs of the draw on a tape: two cards out of three, the second one
    upright, and a draw from a deck that is too small. *)
Example tape_draw_two :
  (λ '(r, g'),
     (match r with
      | Ok drawn =>
          Some (map (λ c : gmap string pyval, (c !! "name", c !! "is_reversed")) drawn)
      | Raise _ => None
      end, g'))
    (generate_random_draw 2 ["Fool"; "Magician"; "Priestess"]
       [5; 9007199254740991; 7; 4000000000000000; 88]%N)
  = (Some [(Some (PStr "Priestess"), Some (PBool true));
           (Some (PStr "Magician"), Some (PBool false))], [88%N]).
Proof. vm_compute. reflexivity. Qed.

Example tape_draw_too_many :
  generate_random_draw 2 ["Fool"] [5; 7]%N
  = (Raise (ValueError "请求的牌数(2)超过了可用牌数(1)"), [5; 7]%N).
Proof. vm_compute. reflexivity. Qed.

(** Two cards out of a deck of three, drawn on a tape. *)
Lemma generate_random_draw_distinct_witness :
  ∃ (drawn : list (gmap string pyval)) (names : list string) (g' : list N),
    generate_random_draw 2 ["Fool"; "Magician"; "Priestess"] [5; 9; 7; 1]%N = (Ok drawn, g')
    ∧ length drawn = 2%nat
    ∧ (λ c : gmap string pyval, c !! "name") <$> drawn = (λ nm, Some (PStr nm)) <$> names
    ∧ NoDup names
    ∧ names ⊆ ["Fool"; "Magician"; "Priestess"].
Proof.
  apply (generate_random_draw_distinct (G := list N)).
  - by apply (bool_decide_unpack _).
  - lia.
  - simpl. lia.
Defined.

(** The second end-to-end scenario: two cards asked of a deck of one. *)
Lemma generate_random_draw_insufficient_witness :
  generate_random_draw 2 ["Fool"] [5; 9; 7; 1]%N
  = (Raise (ValueError "请求的牌数(2)超过了可用牌数(1)"), [5; 9; 7; 1]%N).
Proof.
  apply (generate_random_draw_insufficient (G := list N) ["Fool"] 2).
  simpl. lia.
Defined.

(** ** The resolver *)

Section ResolverProperties.
Implicit Types (card_meanings : gmap string (gmap string string)).
Implicit Types (card_info : gmap string pyval) (meaning_data : gmap string string).

(** One pass of the loop appends the two lines of the card, or stops with
    the exception of the card. *)
Lemma resolve_loop_step card_meanings card_info rest details symbols :
  resolve_loop card_meanings (card_info :: rest) details symbols
  = bind (card_lines card_meanings card_info) (λ '(d, s),
      resolve_loop card_meanings rest (details ++ [d]) (symbols ++ [s])).
Proof. reflexivity. Qed.

(** A card that carries a name never makes the resolver fail. *)
Lemma card_lines_total card_meanings card_info :
  is_Some (card_info !! "name") → ∃ d s, card_lines card_meanings card_info = Ok (d, s).
Proof.
  intros [name Hname]. unfold card_lines. rewrite Hname.
  destruct (find_meaning name card_meanings) as [meaning_data|]; [|by eauto].
  destruct (truthy _); by eauto.
Qed.

(** So the loop, and with it the resolver, returns for every list of named
    cards. *)
Lemma resolve_loop_total card_meanings cards details symbols :
  Forall (λ c : gmap string pyval, is_Some (c !! "name")) cards →
  ∃ ds ss, resolve_loop card_meanings cards details symbols = Ok (ds, ss).
Proof.
  intros Hcards. revert details symbols.
  induction Hcards as [|c cards Hc _ IH]; intros details symbols; [by eexists _, _|].
  rewrite resolve_loop_step.
  destruct (card_lines_total card_meanings c Hc) as (d & s & ->). apply IH.
Qed.

Lemma prepare_prompt_input_total card_meanings (input : input_data) :
  Forall (λ c : gmap string pyval, is_Some (c !! "name")) (cards input) →
  ∃ x, prepare_prompt_input input card_meanings = Ok x ∧ pi_context x = context input.
Proof.
  intros Hcards. unfold prepare_prompt_input.
  destruct (resolve_loop_total card_meanings (cards input) [] [] Hcards) as (ds & ss & ->).
  by eexists.
Qed.

(** C3, as the code has it: for a card whose name is in the deck the loop
    appends the line [**name** (position): meaning], where the position label
    is 逆位 for a reversed card and 正位 for an upright one. *)
Theorem card_detail_line_format card_meanings card_info name meaning_data rest details symbols :
  card_info !! "name" = Some name →
  find_meaning name card_meanings = Some meaning_data →
  ∃ position meaning symbolism_text,
    resolve_loop card_meanings (card_info :: rest) details symbols
    = resolve_loop card_meanings rest
        (details ++ ["**" +:+ str name +:+ "** (" +:+ position +:+ "): " +:+ meaning])
        (symbols ++ ["**" +:+ str name +:+ "**: " +:+ symbolism_text])
    ∧ position = (if truthy (dict_get card_info "is_reversed" (PBool false))
                  then "逆位" else "正位")
    ∧ meaning = (if truthy (dict_get card_info "is_reversed" (PBool false))
                 then dict_get meaning_data "reversed" "逆位含义未知"
                 else dict_get meaning_data "upright" "正位含义未知")
    ∧ symbolism_text = dict_get meaning_data "symbolism" "象征意义未知".
Proof.
  intros Hname Hdeck. rewrite resolve_loop_step. unfold card_lines.
  rewrite Hname, Hdeck.
  destruct (truthy (dict_get card_info "is_reversed" (PBool false))); by eexists _, _, _.
Qed.

(** The first end-to-end scenario, as the code answers it. *)
Lemma card_detail_line_format_witness :
  prepare_prompt_input {| cards := [fool_upright]; context := "What lies ahead?" |} fool_deck
  = Ok {| card_details := "**Fool** (正位): new beginnings";
          pi_context := "What lies ahead?";
          symbolism := "**Fool**: innocence" |}.
Proof.
  unfold prepare_prompt_input. simpl cards.
  destruct (card_detail_line_format fool_deck fool_upright (PStr "Fool")
              (<["upright" := "new beginnings"]>
                 (<["reversed" := "recklessness"]> (<["symbolism" := "innocence"]> ∅)))
              [] [] [] eq_refl eq_refl)
    as (position & meaning & symbolism_text & -> & -> & -> & ->).
  reflexivity.
Defined.

(** C3, the claim: the details text of the Fool scenario is not the English
    rendering. *)
Lemma fool_card_details_not_english :
  ¬ ∃ x, prepare_prompt_input {| cards := [fool_upright]; context := "What lies ahead?" |} fool_deck
         = Ok x
       ∧ card_details x = "**Fool** (upright): new beginnings".
Proof.
  intros (x & Hx & Hd). vm_compute in Hx. injection Hx as <-. vm_compute in Hd. discriminate Hd.
Qed.


(** C4, as the code has it: the reversed text is taken when [is_reversed] is
    true and the upright text otherwise; a placeholder stands in only for a
    text that is missing from the record of the card, and a text that is
    present is used as it is, the empty one included. *)
Theorem meaning_selected_by_orientation card_meanings card_info name meaning_data :
  card_info !! "name" = Some name →
  find_meaning name card_meanings = Some meaning_data →
  card_lines card_meanings card_info
  = Ok (if truthy (dict_get card_info "is_reversed" (PBool false))
        then "**" +:+ str name +:+ "** (逆位): "
             +:+ default "逆位含义未知" (meaning_data !! "reversed")
        else "**" +:+ str name +:+ "** (正位): "
             +:+ default "正位含义未知" (meaning_data !! "upright"),
        "**" +:+ str name +:+ "**: "
        +:+ default "象征意义未知" (meaning_data !! "symbolism")).
Proof.
  intros Hname Hdeck. unfold card_lines. rewrite Hname, Hdeck. unfold dict_get.
  by destruct (truthy _), (meaning_data !! "reversed"), (meaning_data !! "upright"),
    (meaning_data !! "symbolism").
Qed.

(** The upright Fool on the deck with the empty upright text. *)
Lemma meaning_selected_by_orientation_witness :
  card_lines blank_deck fool_upright = Ok ("**Fool** (正位): ", "**Fool**: innocence").
Proof.
  exact (meaning_selected_by_orientation blank_deck fool_upright (PStr "Fool")
           (<["upright" := ""]>
              (<["reversed" := "recklessness"]> (<["symbolism" := "innocence"]> ∅)))
           eq_refl eq_refl).
Defined.

(** C4, the claim: an empty upright text is kept, no placeholder is put in
    its place. *)
Lemma empty_meaning_not_replaced :
  ∃ x, prepare_prompt_input {| cards := [fool_upright]; context := "" |} blank_deck = Ok x
     ∧ card_details x = "**Fool** (正位): "
     ∧ ¬ contains "正位含义未知" (card_details x)
     ∧ ¬ contains "upright meaning unknown" (card_details x).
Proof.
  eexists. split; [vm_compute; reflexivity|]. simpl card_details.
  split; [reflexivity|]. split; by apply not_contains.
Qed.





End ResolverProperties.

(** ** The card table *)

Section LoaderProperties.
Variable strip : string → string.

(** A row always yields the three texts; an empty cell yields the empty
    text, so the resolver placeholders for a missing text do not come up for
    a loaded table. *)
Lemma row_entry_complete (row : csv_row) :
  row_entry strip row !! "upright" = Some (cell_text strip (row_upright row))
  ∧ row_entry strip row !! "reversed" = Some (cell_text strip (row_reversed row))
  ∧ row_entry strip row !! "symbolism" = Some (cell_text strip (row_symbolism row)).
Proof. unfold row_entry. by simplify_map_eq. Qed.

Lemma row_entry_blank_cell (row : csv_row) :
  row_upright row = None → row_entry strip row !! "upright" = Some "".
Proof. intros Hcell. unfold row_entry. rewrite Hcell. by simplify_map_eq. Qed.

(** Every record of the loaded table is the entry of one of the rows. *)
Lemma load_card_meanings_entries (rows : list csv_row) (name : string)
    (meaning_data : gmap string string) :
  load_card_meanings strip rows !! name = Some meaning_data →
  ∃ row, row ∈ rows ∧ meaning_data = row_entry strip row.
Proof.
  unfold load_card_meanings.
  assert (∀ acc : gmap string (gmap string string),
    foldl (λ card_meanings row, <[strip (row_card row) := row_entry strip row]> card_meanings)
      acc rows !! name = Some meaning_data →
    acc !! name = Some meaning_data ∨ ∃ row, row ∈ rows ∧ meaning_data = row_entry strip row)
    as Hgen.
  { induction rows as [|row rows IH]; intros acc; simpl; [by left|].
    intros [Hacc|(r & Hr & ->)]%IH.
    - destruct (decide (strip (row_card row) = name)) as [<-|Hne].
      + rewrite lookup_insert_eq in Hacc. injection Hacc as <-. right. exists row.
        split; [left|done].
      + rewrite lookup_insert_ne in Hacc by done. by left.
    - right. exists r. split; [by right|done]. }
  intros [Hempty|Hrow]%Hgen; [by rewrite lookup_empty in Hempty|done].
Qed.

End LoaderProperties.

(** ** Captions *)

(** A card with the [is_reversed] key is captioned with the marker, whatever
    the key holds. *)
Lemma caption_with_key (card_info : gmap string pyval) (name v : pyval) :
  card_info !! "name" = Some name →
  card_info !! "is_reversed" = Some v →
  caption card_info = Ok (str name +:+ " (R)").
Proof.
  intros Hname Hrev. unfold caption, reversed_label, has_key.
  rewrite Hname, Hrev. by rewrite bool_decide_true.
Qed.

(** C9: the caption of an upright drawn card carries the marker [(R)], while
    the picture of the same card is not turned. *)
Theorem caption_marks_upright_card :
  caption fool_upright = Ok "Fool (R)" ∧ is_rotated fool_upright = false.
Proof. split; reflexivity. Qed.

(** ** The prompt *)

Section PromptProperties.

(** The template is its four pieces of text with the three fields between. *)
Lemma system_message_template_fields :
  system_message_template
  = system_text_0 +:+ "{card_details}" +:+ system_text_1 +:+ "{context}"
    +:+ system_text_2 +:+ "{symbolism}" +:+ system_text_3.
Proof. vm_compute. reflexivity. Qed.

(** Formatting puts the three values between the pieces, unchanged. *)
Lemma format_system_message (x : prompt_input) :
  format system_message_template (keywords x)
  = Ok (system_text_0 +:+ card_details x +:+ system_text_1 +:+ pi_context x
        +:+ system_text_2 +:+ symbolism x +:+ system_text_3).
Proof. vm_compute. reflexivity. Qed.

(** The user template is the context field alone. *)
Lemma format_prompt_analysis (x : prompt_input) :
  format prompt_analysis (context_keyword x) = Ok (pi_context x).
Proof.
  change (format prompt_analysis (context_keyword x)) with (Ok (pi_context x +:+ "")).
  by rewrite append_empty_r.
Qed.

(** C6: the request has two messages; every line of [card_details] and of
    [symbolism] occurs verbatim in the system message, and the user message
    is the context. *)
Theorem build_messages_verbatim (x : prompt_input) :
  ∃ system_text,
    build_messages x = Ok [SystemMessage system_text; HumanMessage (pi_context x)]
    ∧ Forall (λ line, contains line system_text) (lines (card_details x))
    ∧ Forall (λ line, contains line system_text) (lines (symbolism x)).
Proof.
  eexists. unfold build_messages.
  rewrite format_system_message, format_prompt_analysis. simpl bind.
  split; [reflexivity|]. split; apply Forall_forall; intros line Hline.
  - apply split_on_contains in Hline.
    apply contains_append_l, contains_append_r. done.
  - apply split_on_contains in Hline.
    do 5 apply contains_append_l. by apply contains_append_r.
Qed.

End PromptProperties.

(** ** The client *)

Section ClientProperties.

(** The text of [FallbackLLM.invoke] quotes the stored error. *)
Lemma fallback_quotes_error {Msgs} (stub : FallbackLLM) (messages : Msgs) :
  contains (error_message stub) (FallbackLLM_invoke stub messages).
Proof. unfold FallbackLLM_invoke. by eexists _, _. Qed.

(** The constructor checks the key it ends up with, the argument or else
    the environment variable: it raises exactly when both are missing or
    empty. *)
Lemma init_without_key (api_key_arg env_key : option string) (model_arg : string)
    (temperature_arg top_p_arg : Q) (max_tokens_arg : Z) :
  is_falsy (py_or api_key_arg env_key) = true →
  ∃ msg, Qwen.__init__ api_key_arg model_arg temperature_arg top_p_arg max_tokens_arg env_key
         = Raise (ValueError msg).
Proof.
  intros Hkey. unfold Qwen.__init__. rewrite Hkey.
  destruct (py_or api_key_arg env_key); by eexists.
Qed.

Lemma init_with_key (api_key_arg env_key : option string) (model_arg : string)
    (temperature_arg top_p_arg : Q) (max_tokens_arg : Z) :
  is_falsy (py_or api_key_arg env_key) = false →
  ∃ client, Qwen.__init__ api_key_arg model_arg temperature_arg top_p_arg max_tokens_arg env_key
            = Ok client
          ∧ py_or api_key_arg env_key = Some (api_key client).
Proof.
  intros Hkey. unfold Qwen.__init__. rewrite Hkey.
  destruct (py_or api_key_arg env_key); [by eexists|done].
Qed.

(** C7, as the code has it: the constructor raises its [ValueError] when
    neither the argument nor the environment variable holds a non-empty key,
    and a non-empty key of the environment makes it succeed with a missing or
    empty argument.  The start-up code, when the key of the environment is
    missing or empty, raises its own configuration error before it reaches
    the constructor and puts a [FallbackLLM] holding the text of that error
    in place of the client.  Every call of [FallbackLLM.invoke], however many
    there are, returns the same apology quoting the text it holds. *)
Theorem missing_api_key_fallback :
  (∀ (api_key_arg env_key : option string) (model_arg : string)
     (temperature_arg top_p_arg : Q) (max_tokens_arg : Z),
     is_falsy api_key_arg = true →
     (is_falsy env_key = true →
      Qwen.__init__ api_key_arg model_arg temperature_arg top_p_arg max_tokens_arg env_key
      = Raise (ValueError
                 "通义千问API密钥未配置，请提供api_key参数或设置DASHSCOPE_API_KEY环境变量"))
     ∧ (∀ k, env_key = Some k → k ≠ "" →
         Qwen.__init__ api_key_arg model_arg temperature_arg top_p_arg max_tokens_arg env_key
         = Ok {| api_key := k; model := model_arg; temperature := temperature_arg;
                 top_p := top_p_arg; max_tokens := max_tokens_arg |}))
  ∧ (∀ env_key : option string,
       is_falsy env_key = true →
       configure env_key
       = Raise (ValueError "通义千问API密钥未配置，请确保.env文件中包含DASHSCOPE_API_KEY")
       ∧ init_llm env_key
         = Fallback
             {| error_message :=
                  "通义千问API密钥未配置，请确保.env文件中包含DASHSCOPE_API_KEY" |})
  ∧ (∀ (stub : FallbackLLM) (calls : list (list message)),
       Forall (λ messages,
                 FallbackLLM_invoke stub messages
                 = "抱歉，AI模型暂时不可用：" +:+ error_message stub
                   +:+ "。请稍后重试或检查配置。"
                 ∧ contains (error_message stub) (FallbackLLM_invoke stub messages))
              calls).
Proof.
  split; [|split].
  - intros api_key_arg env_key model_arg temperature_arg top_p_arg max_tokens_arg Harg.
    unfold Qwen.__init__, py_or. rewrite Harg. split.
    + intros Henv. rewrite Henv. by destruct env_key.
    + intros k -> Hk. unfold is_falsy.
      by rewrite (proj2 (String.eqb_neq k "") Hk).
  - intros env_key Henv. unfold init_llm, configure. by rewrite Henv.
  - intros stub calls. apply Forall_forall. intros messages _.
    split; [reflexivity|]. apply fallback_quotes_error.
Qed.

(** No key at all, then an empty key in the environment and two calls in a
    row. *)
Lemma missing_api_key_fallback_witness :
  Qwen.__init__ None "qwen-plus" (8 # 10)%Q (8 # 10)%Q 2000 (Some "")
  = Raise (ValueError "通义千问API密钥未配置，请提供api_key参数或设置DASHSCOPE_API_KEY环境变量")
  ∧ init_llm (Some "")
    = Fallback {| error_message := "通义千问API密钥未配置，请确保.env文件中包含DASHSCOPE_API_KEY" |}
  ∧ Forall (λ messages : list message,
              FallbackLLM_invoke
                {| error_message := "通义千问API密钥未配置，请确保.env文件中包含DASHSCOPE_API_KEY" |}
                messages
              = "抱歉，AI模型暂时不可用：通义千问API密钥未配置，请确保.env文件中包含DASHSCOPE_API_KEY。请稍后重试或检查配置。")
           [[HumanMessage "first"]; [HumanMessage "second"]].
Proof.
  destruct missing_api_key_fallback as (Hinit & Hstart & Hcalls).
  split; [|split].
  - exact (proj1 (Hinit None (Some "") "qwen-plus" (8 # 10)%Q (8 # 10)%Q 2000 eq_refl)
             eq_refl).
  - exact (proj2 (Hstart (Some "") eq_refl)).
  - eapply Forall_impl;
      [apply (Hcalls
                {| error_message :=
                     "通义千问API密钥未配置，请确保.env文件中包含DASHSCOPE_API_KEY" |})|].
    intros messages [Htext _]. exact Htext.
Defined.

(** C7, the claim: a client constructed with a missing or with an empty
    key argument is constructed all the same when the environment holds a
    key. *)
Lemma empty_api_key_constructs :
  is_falsy None = true
  ∧ is_falsy (Some "") = true
  ∧ Qwen.__init__ None "qwen-plus" (8 # 10)%Q (8 # 10)%Q 2000 (Some "sk-env")
    = Ok {| api_key := "sk-env"; model := "qwen-plus"; temperature := (8 # 10)%Q;
            top_p := (8 # 10)%Q; max_tokens := 2000 |}
  ∧ Qwen.__init__ (Some "") "qwen-plus" (8 # 10)%Q (8 # 10)%Q 2000 (Some "sk-env")
    = Ok {| api_key := "sk-env"; model := "qwen-plus"; temperature := (8 # 10)%Q;
            top_p := (8 # 10)%Q; max_tokens := 2000 |}.
Proof. repeat split. Qed.

(** A status other than 200 never counts as a success. *)
Lemma is_success_status (r : response) :
  status_code r ≠ 200 → is_success r = Ok false.
Proof. intros Hstatus. unfold is_success. by rewrite decide_False. Qed.

(** C8, as the code has it: [_generate] never raises.  A response that does
    not qualify as a success, as every response with a status other than 200,
    is reported as API调用失败 with the status code and the message of the
    response; an exception of the call, or of reading a malformed body, is
    reported as API调用异常 with the text of the exception. *)
Theorem generate_failure_text (self : QwenLLMImproved) (messages : list message)
    (kw : kwargs) (call : request → call_outcome) :
  ∃ t,
    _generate self messages kw call = Ok {| generations := [[ {| text := t |} ]] |}
    ∧ (∀ e, call (call_arguments self messages kw) = Raised e →
            t = "API调用异常: " +:+ exn_str e)
    ∧ (∀ r, call (call_arguments self messages kw) = Returned r →
            status_code r ≠ 200 ∨ is_success r = Ok false →
            t = "API调用失败: HTTP状态码 " +:+ str_of_Z (status_code r)
                +:+ ", 错误信息: " +:+ default "未知错误" (resp_message r)
            ∧ contains "API调用失败" t
            ∧ contains (str_of_Z (status_code r)) t)
    ∧ (∀ r e, call (call_arguments self messages kw) = Returned r →
              is_success r = Raise e ∨ (is_success r = Ok true ∧ first_content r = Raise e) →
              t = "API调用异常: " +:+ exn_str e).
Proof.
  unfold _generate, generate_try.
  destruct (call (call_arguments self messages kw)) as [r|e0] eqn:Hcall.
  2:{ eexists. split; [reflexivity|]. split; [by intros e [= <-]|]. split; by intros. }
  assert (∀ r', Returned r = Returned r' →
                status_code r' ≠ 200 ∨ is_success r' = Ok false →
                is_success r = Ok false) as Hfail.
  { intros r' [= <-] [Hstatus|Hsucc]; [by apply is_success_status|done]. }
  destruct (is_success r) as [[|]|e1] eqn:Hsucc; simpl.
  - destruct (first_content r) as [content|e2] eqn:Hcontent; simpl;
      (eexists; split; [reflexivity|]; split; [done|]; split).
    + intros r' Hr Hcase. by specialize (Hfail r' Hr Hcase).
    + intros r' e [= <-] [?|[_ ?]]; congruence.
    + intros r' Hr Hcase. by specialize (Hfail r' Hr Hcase).
    + intros r' e [= <-] [?|[_ ?]]; congruence.
  - eexists. split; [reflexivity|]. split; [done|]. split.
    + intros r' [= <-] _. split; [done|]. split.
      * by exists "", (": HTTP状态码 " +:+ str_of_Z (status_code r) +:+ ", 错误信息: "
                      +:+ default "未知错误" (resp_message r)).
      * by exists "API调用失败: HTTP状态码 ",
                  (", 错误信息: " +:+ default "未知错误" (resp_message r)).
    + intros r' e [= <-] [?|[? _]]; congruence.
  - eexists. split; [reflexivity|]. split; [done|]. split.
    + intros r' Hr Hcase. by specialize (Hfail r' Hr Hcase).
    + intros r' e [= <-] [?|[? _]]; congruence.
Qed.

(** The third end-to-end scenario: the service answers 401. *)
Lemma generate_failure_text_witness :
  _generate sample_client [HumanMessage "hello"] no_kwargs (λ _, Returned unauthorized)
  = Ok {| generations :=
            [[ {| text := "API调用失败: HTTP状态码 401, 错误信息: Invalid API-key provided." |} ]] |}.
Proof.
  destruct (generate_failure_text sample_client [HumanMessage "hello"] no_kwargs
              (λ _, Returned unauthorized)) as (t & Hgen & _ & Hstatus & _).
  destruct (Hstatus unauthorized eq_refl (or_intror eq_refl)) as (Ht & _ & _).
  rewrite Hgen, Ht. reflexivity.
Defined.

(** C8, the claim: when the call raises, the text has no API调用失败 marker. *)
Lemma generate_exception_text_unmarked :
  ∃ t, _generate sample_client [HumanMessage "hello"] no_kwargs
         (λ _, Raised (OtherError "Connection timed out"))
       = Ok {| generations := [[ {| text := t |} ]] |}
     ∧ t = "API调用异常: Connection timed out"
     ∧ ¬ contains "API调用失败" t
     ∧ ¬ contains "API call failed" t.
Proof.
  eexists. split; [reflexivity|]. split; [reflexivity|].
  split; by apply not_contains.
Qed.

End ClientProperties.

(** * Further properties *)

Import Notions.


(** ** The draw, any deck *)

Section DrawShape.
Context {G : Type} `{RandomSource G}.

(** The loop builds each card from its name and one Boolean, nothing else. *)
Lemma for_each_draw_card_exact (selected : list string) (g : G) :
  ∃ (flags : list bool) (g' : G),
    for_each selected draw_card g
    = (Ok (zip_with drawn_card selected flags), g')
    ∧ length flags = length selected.
Proof.
  revert g. induction selected as [|nm selected IH]; intros g; simpl.
  { by exists [], g. }
  unfold bindM at 1. unfold draw_card at 1. unfold bindM at 1, random_random.
  destruct (random g) as [k g1]. unfold ret at 1.
  unfold bindM at 1. destruct (IH g1) as (flags & g2 & -> & Hlen).
  exists (lt_0_3 k :: flags), g2. split; [reflexivity|]. simpl. by rewrite Hlen.
Qed.

(** What a draw within range returns, for any deck. *)
Lemma draw_within_range (D : list string) (n : Z) (g : G) :
  0 ≤ n ≤ Z.of_nat (length D) →
  ∃ (ps : list nat) (flags : list bool) (g' : G),
    generate_random_draw n D g
    = (Ok (zip_with drawn_card (omap (λ p, D !! p) ps) flags), g')
    ∧ NoDup ps
    ∧ Forall (λ p, (p < length D)%nat) ps
    ∧ length ps = Z.to_nat n
    ∧ length flags = length (omap (λ p, D !! p) ps)
    ∧ length (omap (λ p, D !! p) ps) = Z.to_nat n.
Proof.
  intros Hn. unfold generate_random_draw. rewrite decide_False by lia.
  destruct (sample_positions string D n g Hn) as (ps & g1 & Hs & Hps & Hlen & Hlt).
  unfold bindM at 1, random_sample. rewrite Hs.
  destruct (for_each_draw_card_exact (omap (λ p, D !! p) ps) g1) as (flags & g2 & Hdraw & Hfl).
  unfold bindM. rewrite Hdraw. unfold ret.
  exists ps, flags, g2. split; [done|]. repeat (split; [done|]).
  rewrite <- Hlen. clear -Hlt. induction Hlt as [|p ps Hp _ IH]; [done|].
  destruct (lookup_lt_is_Some_2 D p Hp) as [x Hx]. cbn. rewrite Hx. cbn. by rewrite IH.
Qed.

(** X1: for any deck, duplicates or not, and any count from 0 to the deck
    size, the draw returns that many cards, and each card is exactly the
    record with a name of the deck under [name] and a Boolean under
    [is_reversed]. *)
Theorem generate_random_draw_cards (D : list string) (n : Z) (g : G) :
  0 ≤ n ≤ Z.of_nat (length D) →
  ∃ (drawn : list (gmap string pyval)) (g' : G),
    generate_random_draw n D g = (Ok drawn, g')
    ∧ length drawn = Z.to_nat n
    ∧ Forall (λ c : gmap string pyval,
                ∃ nm b, nm ∈ D
                  ∧ c = <["name" := PStr nm]> (<["is_reversed" := PBool b]> ∅)) drawn.
Proof.
  intros Hn.
  destruct (draw_within_range D n g Hn) as (ps & flags & g' & Hdraw & _ & _ & _ & Hfl & Hlen).
  eexists _, g'. split; [exact Hdraw|]. split.
  - rewrite length_zip_with. lia.
  - apply Forall_forall. intros c Hc.
    apply elem_of_lookup_zip_with in Hc as (i & nm & b & -> & Hnm & Hb).
    exists nm, b. split; [|done].
    apply list_elem_of_lookup_2 in Hnm.
    apply list_elem_of_omap in Hnm as (p & _ & Hp). by eapply list_elem_of_lookup_2.
Qed.

End DrawShape.

(** The run behind the witness below: the Magician, reversed, and one of
    the two Fools, upright. *)
Example tape_draw_with_duplicates :
  generate_random_draw 2 ["Fool"; "Fool"; "Magician"] [5; 9; 7; 4000000000000000]%N
  = (Ok [drawn_card "Magician" true; drawn_card "Fool" false], []).
Proof. vm_compute. reflexivity. Qed.

(** Two cards from a deck of three that names the Fool twice. *)
Lemma generate_random_draw_cards_witness :
  ∃ (drawn : list (gmap string pyval)) (g' : list N),
    generate_random_draw 2 ["Fool"; "Fool"; "Magician"] [5; 9; 7; 4000000000000000]%N
    = (Ok drawn, g')
    ∧ length drawn = 2%nat
    ∧ Forall (λ c : gmap string pyval,
                ∃ nm b, nm ∈ ["Fool"; "Fool"; "Magician"]
                  ∧ c = <["name" := PStr nm]> (<["is_reversed" := PBool b]> ∅)) drawn.
Proof.
  apply (generate_random_draw_cards (G := list N)). simpl. lia.
Defined.


(** ** The resolver, whole lists *)

Section ResolverLists.
Implicit Types (card_meanings : gmap string (gmap string string)).

(** The loop with accumulators is a map over the cards. *)
Lemma resolve_loop_lines card_meanings (cards : list (gmap string pyval))
    (pairs : list (string * string)) (details symbols : list string) :
  Forall2 (λ c p, card_lines card_meanings c = Ok p) cards pairs →
  resolve_loop card_meanings cards details symbols
  = Ok ((details ++ pairs.*1)%list, (symbols ++ pairs.*2)%list).
Proof.
  intros Hlines. revert details symbols.
  induction Hlines as [|c [d s] cards pairs Hc _ IH]; intros details symbols.
  { simpl. by rewrite !app_nil_r. }
  rewrite resolve_loop_step, Hc. simpl. rewrite IH.
  by rewrite <- !app_assoc.
Qed.

(** The loop stops at the first card without a name. *)
Lemma resolve_loop_unnamed card_meanings (cards : list (gmap string pyval))
    (details symbols : list string) :
  Exists (λ c : gmap string pyval, c !! "name" = None) cards →
  resolve_loop card_meanings cards details symbols = Raise (KeyError "name").
Proof.
  intros Hex. revert details symbols.
  induction cards as [|c cards IH]; intros details symbols.
  { by apply Exists_nil in Hex. }
  rewrite resolve_loop_step.
  destruct (c !! "name") as [name|] eqn:Hname.
  - destruct (card_lines_total card_meanings c (mk_is_Some _ _ Hname)) as (d & s & ->).
    simpl. apply IH. apply Exists_cons in Hex as [Hc|Hrest]; [congruence|done].
  - unfold card_lines. by rewrite Hname.
Qed.

(** X3: the two texts are the lines of the cards in draw order, joined with
    newlines, and the context is handed on unchanged. *)
Theorem prepare_prompt_input_lines card_meanings (input : input_data)
    (pairs : list (string * string)) :
  Forall2 (λ c p, card_lines card_meanings c = Ok p) (cards input) pairs →
  prepare_prompt_input input card_meanings
  = Ok {| card_details := join (String newline "") pairs.*1;
          pi_context := context input;
          symbolism := join (String newline "") pairs.*2 |}.
Proof.
  intros Hlines. unfold prepare_prompt_input.
  by rewrite (resolve_loop_lines _ _ pairs [] [] Hlines).
Qed.

(** X4: the resolver raises exactly when a card has no [name] key, and then
    the exception is [KeyError('name')]: the deck, the orientation and the
    texts never make it fail. *)
Theorem prepare_prompt_input_raises card_meanings (input : input_data) :
  (Exists (λ c : gmap string pyval, c !! "name" = None) (cards input) →
   prepare_prompt_input input card_meanings = Raise (KeyError "name"))
  ∧ (∀ e, prepare_prompt_input input card_meanings = Raise e →
          e = KeyError "name"
          ∧ Exists (λ c : gmap string pyval, c !! "name" = None) (cards input)).
Proof.
  split.
  - intros Hex. unfold prepare_prompt_input.
    by rewrite (resolve_loop_unnamed _ _ [] [] Hex).
  - intros e He.
    destruct (decide (Forall (λ c : gmap string pyval, is_Some (c !! "name")) (cards input)))
      as [Hall|Hnot].
    + destruct (prepare_prompt_input_total card_meanings input Hall) as (x & Hx & _).
      congruence.
    + assert (Exists (λ c : gmap string pyval, c !! "name" = None) (cards input)) as Hex.
      { apply not_Forall_Exists in Hnot; [|apply _].
        eapply Exists_impl; [exact Hnot|]. intros c Hc. simpl in Hc.
        destruct (c !! "name"); [|done]. by destruct Hc. }
      split; [|done]. unfold prepare_prompt_input in He.
      rewrite (resolve_loop_unnamed _ _ [] [] Hex) in He. simpl in He. congruence.
Qed.

End ResolverLists.

(** Three cards: the Fool upright, the Tower reversed and not in the deck,
    and the Fool again, reversed. *)
Lemma prepare_prompt_input_lines_witness :
  prepare_prompt_input
    {| cards := [fool_upright;
                 <["name" := PStr "Tower"]> (<["is_reversed" := PBool true]> ∅);
                 <["name" := PStr "Fool"]> (<["is_reversed" := PBool true]> ∅)];
       context := "q" |} fool_deck
  = Ok {| card_details := "**Fool** (正位): new beginnings
**Tower** (逆位): 含义待解读
**Fool** (逆位): recklessness";
          pi_context := "q";
          symbolism := "**Fool**: innocence
**Tower**: 象征意义待解读
**Fool**: innocence" |}.
Proof.
  apply (prepare_prompt_input_lines fool_deck
           {| cards := [fool_upright;
                        <["name" := PStr "Tower"]> (<["is_reversed" := PBool true]> ∅);
                        <["name" := PStr "Fool"]> (<["is_reversed" := PBool true]> ∅)];
              context := "q" |}
           [("**Fool** (正位): new beginnings", "**Fool**: innocence");
            ("**Tower** (逆位): 含义待解读", "**Tower**: 象征意义待解读");
            ("**Fool** (逆位): recklessness", "**Fool**: innocence")]).
  repeat constructor.
Defined.

(** ** Lines of a joined text *)

Section Lines.

Lemma split_on_plain (sep : ascii) (s : string) :
  containsb (String sep "") s = false → split_on sep s = [s].
Proof.
  induction s as [|c s IH]; [done|]. simpl.
  destruct (Ascii.eqb sep c) eqn:Hc; simpl; [done|].
  intros Hs. rewrite Ascii.eqb_sym, Hc. rewrite IH; [done|].
  destruct s; simpl in *; [done|]. exact Hs.
Qed.

Lemma split_on_append (sep : ascii) (a b : string) :
  containsb (String sep "") a = false →
  split_on sep (a +:+ String sep b) = a :: split_on sep b.
Proof.
  induction a as [|c a IH]; simpl.
  { intros _. by rewrite Ascii.eqb_refl. }
  destruct (Ascii.eqb sep c) eqn:Hc; simpl; [done|].
  intros Ha. rewrite Ascii.eqb_sym, Hc.
  change (String c a +:+ String sep b) with (String c (a +:+ String sep b)).
  rewrite IH; [done|]. destruct a; simpl in *; [done|]. exact Ha.
Qed.

(** Splitting a joined text gives the items back, as long as there is an
    item and no item holds the separator. *)
Lemma lines_join (l : list string) :
  l ≠ [] →
  Forall (λ s, containsb (String newline "") s = false) l →
  lines (join (String newline "") l) = l.
Proof.
  intros Hne Hl. unfold lines, join.
  induction Hl as [|s l Hs Hl IH]; [done|].
  destruct l as [|s' l].
  - simpl. by apply split_on_plain.
  - change (String.concat (String newline "") (s :: s' :: l))
      with (s +:+ String newline (String.concat (String newline "") (s' :: l))).
    rewrite split_on_append by done. f_equal. by apply IH.
Qed.

(** X5: when no line of a card holds a newline, the lines of
    [card_details] and of [symbolism] are the lines of the cards, one per
    card and in draw order. *)
Theorem prepare_prompt_input_one_line_per_card
    (card_meanings : gmap string (gmap string string)) (input : input_data)
    (pairs : list (string * string)) :
  cards input ≠ [] →
  Forall2 (λ c p, card_lines card_meanings c = Ok p) (cards input) pairs →
  Forall (λ p, containsb (String newline "") p.1 = false
               ∧ containsb (String newline "") p.2 = false) pairs →
  ∃ x, prepare_prompt_input input card_meanings = Ok x
     ∧ lines (card_details x) = pairs.*1
     ∧ lines (symbolism x) = pairs.*2.
Proof.
  intros Hne Hlines Hplain. eexists.
  assert (pairs ≠ []) as Hpairs.
  { intros ->. apply Forall2_nil_inv_r in Hlines. done. }
  unfold prepare_prompt_input.
  rewrite (resolve_loop_lines _ _ pairs [] [] Hlines). simpl.
  split; [reflexivity|]. simpl.
  split; apply lines_join.
  - by destruct pairs.
  - apply Forall_fmap. eapply Forall_impl; [exact Hplain|]. by intros p [? _].
  - by destruct pairs.
  - apply Forall_fmap. eapply Forall_impl; [exact Hplain|]. by intros p [_ ?].
Qed.

End Lines.

Lemma prepare_prompt_input_one_line_per_card_witness :
  ∃ x, prepare_prompt_input
         {| cards := [fool_upright; {[ "name" := PStr "Tower" ]}]; context := "q" |} fool_deck
       = Ok x
     ∧ lines (card_details x)
       = ["**Fool** (正位): new beginnings"; "**Tower** (正位): 含义待解读"]
     ∧ lines (symbolism x) = ["**Fool**: innocence"; "**Tower**: 象征意义待解读"].
Proof.
  apply (prepare_prompt_input_one_line_per_card fool_deck
           {| cards := [fool_upright; {[ "name" := PStr "Tower" ]}]; context := "q" |}
           [("**Fool** (正位): new beginnings", "**Fool**: innocence");
            ("**Tower** (正位): 含义待解读", "**Tower**: 象征意义待解读")]).
  - done.
  - repeat constructor.
  - repeat constructor.
Defined.

(** ** The card table, lookups *)

Section LoaderLookups.
Variable strip : string → string.

(** Loading after [before]: the record under a name is the entry of the last
    row with that name, or what was there before. *)
Lemma load_from_lookup (rows : list csv_row) (acc : gmap string (gmap string string))
    (name : string) :
  foldl (λ card_meanings row, <[strip (row_card row) := row_entry strip row]> card_meanings)
        acc rows !! name
  = match last (filter (λ row, strip (row_card row) = name) rows) with
    | Some row => Some (row_entry strip row)
    | None => acc !! name
    end.
Proof.
  revert acc. induction rows as [|row rows IH]; intros acc; [done|].
  simpl. rewrite IH. rewrite filter_cons.
  destruct (decide (strip (row_card row) = name)) as [Heq|Hne].
  - rewrite last_cons.
    destruct (last (filter _ rows)); [done|]. by rewrite Heq, lookup_insert_eq.
  - destruct (last (filter _ rows)); [done|]. by rewrite lookup_insert_ne.
Qed.

(** X6: the table maps a name to the texts of the last row whose trimmed
    card name it is, and has no record for any other name. *)
Theorem load_card_meanings_lookup (rows : list csv_row) (name : string) :
  load_card_meanings strip rows !! name
  = row_entry strip <$> last (filter (λ row, strip (row_card row) = name) rows).
Proof.
  unfold load_card_meanings. rewrite load_from_lookup.
  by destruct (last _).
Qed.

Lemma load_lookup_row (rows : list csv_row) (name : string)
    (meaning_data : gmap string string) :
  load_card_meanings strip rows !! name = Some meaning_data →
  ∃ row, row ∈ rows ∧ strip (row_card row) = name ∧ meaning_data = row_entry strip row.
Proof.
  unfold load_card_meanings. rewrite load_from_lookup.
  destruct (last (filter _ rows)) as [row|] eqn:Hrow; [|done].
  intros [= <-]. apply last_Some_elem_of in Hrow.
  apply list_elem_of_filter in Hrow as [Hstrip Hrow]. by exists row.
Qed.

(** X7: every record of the table holds all three texts, so a card found in
    the table is resolved with the trimmed cells of a row of that name, the
    empty text for an empty cell, and never with a placeholder. *)
Theorem loaded_card_lines (rows : list csv_row) (card_info : gmap string pyval)
    (name : string) (meaning_data : gmap string string) :
  card_info !! "name" = Some (PStr name) →
  load_card_meanings strip rows !! name = Some meaning_data →
  ∃ row,
    row ∈ rows ∧ strip (row_card row) = name
    ∧ card_lines (load_card_meanings strip rows) card_info
      = Ok (if is_rotated card_info
            then "**" +:+ name +:+ "** (逆位): " +:+ cell_text strip (row_reversed row)
            else "**" +:+ name +:+ "** (正位): " +:+ cell_text strip (row_upright row),
            "**" +:+ name +:+ "**: " +:+ cell_text strip (row_symbolism row)).
Proof.
  intros Hname Hdeck.
  destruct (load_lookup_row rows name meaning_data Hdeck) as (row & Hrow & Hstrip & ->).
  exists row. split; [done|]. split; [done|].
  destruct (row_entry_complete strip row) as (Hup & Hrev & Hsym).
  unfold card_lines, is_rotated. rewrite Hname. simpl. rewrite Hdeck.
  unfold dict_get at 2 3 4. rewrite Hup, Hrev, Hsym.
  by destruct (truthy _).
Qed.

End LoaderLookups.

(** A table of two rows for the same card, the second with an empty cell. *)
Lemma loaded_card_lines_witness :
  ∃ row,
    row ∈ [ {| row_card := "Fool"; row_upright := Some "old"; row_reversed := Some "r";
               row_symbolism := Some "s" |};
            {| row_card := "Fool"; row_upright := None; row_reversed := Some "recklessness";
               row_symbolism := Some "innocence" |} ]
    ∧ row_card row = "Fool"
    ∧ card_lines
        (load_card_meanings (λ s, s)
           [ {| row_card := "Fool"; row_upright := Some "old"; row_reversed := Some "r";
                row_symbolism := Some "s" |};
             {| row_card := "Fool"; row_upright := None; row_reversed := Some "recklessness";
                row_symbolism := Some "innocence" |} ])
        fool_upright
      = Ok (if is_rotated fool_upright
            then "**Fool** (逆位): " +:+ cell_text (λ s, s) (row_reversed row)
            else "**Fool** (正位): " +:+ cell_text (λ s, s) (row_upright row),
            "**Fool**: " +:+ cell_text (λ s, s) (row_symbolism row)).
Proof.
  apply (loaded_card_lines (λ s, s) _ fool_upright "Fool"
           (row_entry (λ s, s)
              {| row_card := "Fool"; row_upright := None; row_reversed := Some "recklessness";
                 row_symbolism := Some "innocence" |})).
  - reflexivity.
  - unfold load_card_meanings. simpl. apply lookup_insert_eq.
Defined.

(** ** The names the app draws from *)

Section DatasetNames.

Lemma elem_of_unique (l : list string) (x : string) : x ∈ unique l ↔ x ∈ l.
Proof.
  induction l as [|y l IH]; [done|]. simpl.
  rewrite !elem_of_cons, list_elem_of_filter, IH. split.
  - intros [->|[_ Hin]]; [by left|by right].
  - intros [->|Hin]; [by left|].
    destruct (decide (x = y)) as [->|Hne]; [by left|by right].
Qed.

Lemma NoDup_unique (l : list string) : NoDup (unique l).
Proof.
  induction l as [|y l IH]; simpl; [constructor|].
  apply NoDup_cons. split.
  - rewrite list_elem_of_filter. by intros [Hne _].
  - by apply NoDup_filter.
Qed.

Context {G : Type} `{RandomSource G}.

(** X8: the names the app draws from are the card names of the rows, each
    once; so whenever the chosen number of cards is within their number, the
    draw gives that many cards with pairwise distinct names, each the card
    name of a row. *)
Theorem app_draw_distinct (rows : list csv_row) (choice : num_choice) (g : G) :
  num_cards_of choice ≤ Z.of_nat (length (card_names_in_dataset rows)) →
  ∃ (names : list string) (flags : list bool) (g' : G),
    generate_random_draw (num_cards_of choice) (card_names_in_dataset rows) g
    = (Ok (zip_with drawn_card names flags), g')
    ∧ length names = Z.to_nat (num_cards_of choice)
    ∧ length flags = Z.to_nat (num_cards_of choice)
    ∧ NoDup names
    ∧ Forall (λ nm, ∃ row, row ∈ rows ∧ row_card row = nm) names.
Proof.
  intros Hn.
  assert (0 ≤ num_cards_of choice) as Hpos by (by destruct choice).
  destruct (draw_within_range (card_names_in_dataset rows) (num_cards_of choice) g
              (conj Hpos Hn)) as (ps & flags & g' & Hdraw & Hps & Hlt & _ & Hfl & Hlen).
  destruct (picked_distinct (card_names_in_dataset rows) ps (NoDup_unique _) Hps Hlt)
    as (_ & Hnd & Hsub).
  eexists _, flags, g'. split; [exact Hdraw|].
  split; [done|]. split; [lia|]. split; [done|].
  apply Forall_forall. intros nm Hnm. apply Hsub in Hnm.
  unfold card_names_in_dataset in Hnm. rewrite elem_of_unique in Hnm.
  change (map row_card rows) with (row_card <$> rows) in Hnm.
  apply list_elem_of_fmap in Hnm as (row & -> & Hrow). by exists row.
Qed.

End DatasetNames.

(** ** Formatting a template *)

Section FormatProperties.
Variable kw : string → option string.

Lemma containsb_char_cons (d c : ascii) (s : string) :
  containsb (String d "") (String c s) = Ascii.eqb d c || containsb (String d "") s.
Proof. simpl. by rewrite andb_true_r. Qed.

Lemma brace_free_cons (c : ascii) (s : string) :
  brace_free (String c s) →
  is_brace_open c = false ∧ is_brace_close c = false ∧ brace_free s.
Proof.
  unfold brace_free, is_brace_open, is_brace_close.
  rewrite !containsb_char_cons, !orb_false_iff, !(Ascii.eqb_sym c).
  intros [[Hopen Hrest] [Hclose Hrest']]. by repeat split.
Qed.

(** Literal text is copied, and formatting goes on behind it. *)
Lemma format_from_literal (lit rest : string) :
  brace_free lit →
  format_from kw None (lit +:+ rest)
  = bind (format_from kw None rest) (λ r, Ok (lit +:+ r)).
Proof.
  induction lit as [|c lit IH]; intros Hfree.
  { change ("" +:+ rest) with rest. destruct (format_from kw None rest); reflexivity. }
  apply brace_free_cons in Hfree as (Hopen & Hclose & Hfree).
  rewrite append_cons. simpl. rewrite Hopen, Hclose, (IH Hfree).
  destruct (format_from kw None rest); reflexivity.
Qed.


(** X9: a template without braces is returned as it is. *)
Theorem format_brace_free (template : string) :
  brace_free template → format template kw = Ok template.
Proof.
  intros Hfree. unfold format.
  rewrite <- (append_empty_r template) at 1.
  rewrite (format_from_literal template "" Hfree). simpl.
  by rewrite append_empty_r.
Qed.


End FormatProperties.

Lemma format_brace_free_witness :
  format "no fields here" (λ _, None) = Ok "no fields here".
Proof. apply format_brace_free. split; reflexivity. Defined.


(** The answers of [format] on fields and braces of every kind. *)
Example format_runs :
  map (λ template, format template (λ key, if String.eqb key "w" then Some "W" else None))
      ["{0}"; "{00}"; "{12}"; "{}"; "{9223372036854775807}"; "{9223372036854775808}";
       "{a}}"; "{a}{"; "{w}}"; "{w}{"; "a}}b{{c"; "{w"; "{"; "}"; "{w}}}"; "{{w}}"; "{ }"]
  = [Raise (IndexError "Replacement index 0 out of range for positional args tuple");
     Raise (IndexError "Replacement index 0 out of range for positional args tuple");
     Raise (IndexError "Replacement index 12 out of range for positional args tuple");
     Raise (IndexError "Replacement index 0 out of range for positional args tuple");
     Raise (IndexError
              "Replacement index 9223372036854775807 out of range for positional args tuple");
     Raise (ValueError "Too many decimal digits in format string");
     Raise (KeyError "a");
     Raise (KeyError "a");
     Raise (ValueError "Single '}' encountered in format string");
     Raise (ValueError "Single '{' encountered in format string");
     Ok "a}b{c";
     Raise (ValueError "expected '}' before end of string");
     Raise (ValueError "Single '{' encountered in format string");
     Raise (ValueError "Single '}' encountered in format string");
     Ok "W}";
     Ok "{w}";
     Raise (KeyError " ")].
Proof. vm_compute. reflexivity. Qed.

(** ** The chain up to the model *)

Section ChainProperties.

(** X11: for cards that all carry a name the chain hands two messages to
    the model, a system message and a user message; the question of the user
    is the user message and also occurs, unchanged, in the system message. *)
Theorem analyzer_messages_question (input : input_data)
    (card_meanings : gmap string (gmap string string)) :
  Forall (λ c : gmap string pyval, is_Some (c !! "name")) (cards input) →
  ∃ system_text,
    analyzer_messages input card_meanings
    = Ok [SystemMessage system_text; HumanMessage (context input)]
    ∧ contains (context input) system_text.
Proof.
  intros Hcards. unfold analyzer_messages.
  destruct (prepare_prompt_input_total card_meanings input Hcards) as (x & -> & Hctx).
  simpl. unfold build_messages.
  rewrite format_system_message, format_prompt_analysis. simpl. rewrite Hctx.
  eexists. split; [reflexivity|].
  do 3 apply contains_append_l. apply contains_append_r. apply contains_refl.
Qed.

End ChainProperties.

Lemma analyzer_messages_question_witness :
  ∃ system_text,
    analyzer_messages {| cards := [fool_upright]; context := "What {now}?" |} fool_deck
    = Ok [SystemMessage system_text; HumanMessage "What {now}?"]
    ∧ contains "What {now}?" system_text.
Proof.
  apply (analyzer_messages_question {| cards := [fool_upright]; context := "What {now}?" |}).
  repeat constructor. by eexists.
Defined.

(** ** The client, all entry points *)

Section ClientEntryPoints.
Variables (self : QwenLLMImproved) (kw : kwargs) (call : request → call_outcome).

(** [_generate] always returns one list with one generation. *)
Lemma _generate_single (messages : list message) :
  ∃ t, _generate self messages kw call = Ok {| generations := [[ {| text := t |} ]] |}.
Proof.
  unfold _generate, generate_try.
  destruct (call _) as [r|e]; [|by eexists].
  destruct (is_success r) as [[|]|e]; simpl; [|by eexists..].
  destruct (first_content r); by eexists.
Qed.

(** X12: the conversion sends every message, in order and with its text
    unchanged, and uses no role but system, user and assistant. *)
Theorem convert_messages_complete (messages : list message) :
  map content (_convert_messages_to_qwen_format messages) = map message_text messages
  ∧ Forall (λ q, role q = "system" ∨ role q = "user" ∨ role q = "assistant")
           (_convert_messages_to_qwen_format messages).
Proof.
  unfold _convert_messages_to_qwen_format. split.
  - induction messages as [|m messages IH]; [done|]. simpl. rewrite IH.
    by destruct m.
  - induction messages as [|m messages IH]; constructor; [|done].
    destruct m; simpl; auto.
Qed.

(** X13: [invoke], [predict_messages] and [predict] never raise and always
    return the text of the one generation of [_generate]; the stand-in text
    for a missing generation is never used. *)
Theorem invoke_returns_generation (input_data : invoke_input) :
  ∃ t,
    _generate self (input_messages input_data) kw call
    = Ok {| generations := [[ {| text := t |} ]] |}
    ∧ invoke_input_data self input_data kw call = Ok (AIMessage t)
    ∧ predict_messages self (input_messages input_data) kw call = Ok (AIMessage t)
    ∧ (∀ txt, input_data = InputStr txt → predict self txt kw call = Ok t).
Proof.
  destruct (_generate_single (input_messages input_data)) as [t Ht].
  exists t. split; [done|].
  split; [|split].
  - unfold invoke_input_data, invoke. by rewrite Ht.
  - unfold predict_messages. by rewrite Ht.
  - intros txt ->. unfold predict. cbn [input_messages] in Ht. by rewrite Ht.
Qed.

(** X14: when the service answers 200 with a list of choices, [invoke]
    returns the content of the first choice, unchanged. *)
Theorem invoke_success (messages : list message) (r : response)
    (c : choice) (rest : list choice) (m : choice_message) (s : string) :
  call (call_arguments self messages kw) = Returned r →
  status_code r = 200 →
  resp_output r = Some (OutputDict (Some (c :: rest))) →
  choice_msg c = Some m →
  msg_content m = Some s →
  invoke self messages kw call = Ok (AIMessage s).
Proof.
  intros Hcall Hstatus Hout Hc Hm.
  unfold invoke, _generate, generate_try, is_success, first_content.
  rewrite Hcall, Hout, Hc, Hm. by rewrite decide_True.
Qed.

(** X15: [generate_prompt] never raises and returns one result per prompt,
    in order, each the result of [_generate] on that prompt as a single user
    message. *)
Theorem generate_prompt_results (prompts : list prompt_value) :
  ∃ results,
    generate_prompt self prompts kw call = Ok results
    ∧ Forall2 (λ p r,
                 ∃ t, r = {| generations := [[ {| text := t |} ]] |}
                    ∧ _generate self [HumanMessage
                                        match p with PromptStr s | PromptOther s => s end]
                                kw call = Ok r)
              prompts results.
Proof.
  unfold generate_prompt.
  induction prompts as [|p prompts (results & IH & Hall)]; [by exists []|].
  change (generate_each self (map prompt_message (p :: prompts)) kw call)
    with (bind (_generate self (prompt_message p) kw call) (λ r,
            bind (generate_each self (map prompt_message prompts) kw call)
                 (λ results, Ok (r :: results)))).
  assert (prompt_message p
          = [HumanMessage match p with PromptStr s | PromptOther s => s end]) as Hp
    by (by destruct p).
  destruct (_generate_single (prompt_message p)) as [t Ht].
  rewrite Ht, IH. simpl. eexists. split; [reflexivity|].
  constructor; [|done]. exists t. split; [done|]. by rewrite <- Hp.
Qed.

End ClientEntryPoints.

(** A backend that answers 200 with one choice. *)
Lemma invoke_success_witness :
  invoke sample_client [HumanMessage "hello"] no_kwargs
    (λ _, Returned {| status_code := 200; resp_message := None;
                      resp_output :=
                        Some (OutputDict
                                (Some [ {| choice_msg :=
                                             Some {| msg_content := Some "The Fool smiles." |} |} ])) |})
  = Ok (AIMessage "The Fool smiles.").
Proof.
  by eapply (invoke_success sample_client no_kwargs).
Defined.

(** ** Configuration *)

Section ConfigurationProperties.

(** X16: a non-empty key given to the constructor is the key of the client,
    whatever the environment holds; without one, a non-empty key of the
    environment is. *)
Theorem init_key_precedence (api_key_arg env_key : option string) (k : string)
    (model_arg : string) (temperature_arg top_p_arg : Q) (max_tokens_arg : Z) :
  k ≠ "" →
  api_key_arg = Some k ∨ (is_falsy api_key_arg = true ∧ env_key = Some k) →
  Qwen.__init__ api_key_arg model_arg temperature_arg top_p_arg max_tokens_arg env_key
  = Ok {| api_key := k; model := model_arg; temperature := temperature_arg;
          top_p := top_p_arg; max_tokens := max_tokens_arg |}.
Proof.
  intros Hk Hcase.
  assert (String.eqb k "" = false) as Hkb by (by apply String.eqb_neq).
  unfold Qwen.__init__, py_or.
  destruct Hcase as [->|[Harg ->]].
  - unfold is_falsy. by rewrite !Hkb.
  - rewrite Harg. unfold is_falsy. by rewrite Hkb.
Qed.

(** X17: with a non-empty key in the environment the app runs on the
    configured client, with that key, the model qwen-plus, temperature and
    top_p 0.8 and 2000 tokens, and the fallback is not used. *)
Theorem init_llm_live (k : string) :
  k ≠ "" →
  init_llm (Some k)
  = Live {| api_key := k; model := "qwen-plus"; temperature := (8 # 10)%Q;
            top_p := (8 # 10)%Q; max_tokens := 2000 |}.
Proof.
  intros Hk.
  assert (String.eqb k "" = false) as Hkb by (by apply String.eqb_neq).
  unfold init_llm, configure, Qwen.__init__, py_or, is_falsy. by rewrite !Hkb.
Qed.

End ConfigurationProperties.

Lemma init_key_precedence_witness :
  Qwen.__init__ (Some "sk-arg") "qwen-plus" (8 # 10)%Q (8 # 10)%Q 2000 (Some "sk-env")
  = Ok {| api_key := "sk-arg"; model := "qwen-plus"; temperature := (8 # 10)%Q;
          top_p := (8 # 10)%Q; max_tokens := 2000 |}
  ∧ Qwen.__init__ (Some "") "qwen-plus" (8 # 10)%Q (8 # 10)%Q 2000 (Some "sk-env")
    = Ok {| api_key := "sk-env"; model := "qwen-plus"; temperature := (8 # 10)%Q;
            top_p := (8 # 10)%Q; max_tokens := 2000 |}.
Proof.
  split.
  - apply init_key_precedence; [done|by left].
  - apply init_key_precedence; [done|by right].
Defined.

Lemma init_llm_live_witness :
  init_llm (Some "sk-test")
  = Live {| api_key := "sk-test"; model := "qwen-plus"; temperature := (8 # 10)%Q;
            top_p := (8 # 10)%Q; max_tokens := 2000 |}.
Proof. by apply init_llm_live. Defined.

(** ** A reading *)

(** The chain with a configured client returns a text for named cards. *)
Lemma analysis_text_total (client : QwenLLMImproved)
    (card_meanings : gmap string (gmap string string))
    (call : request → call_outcome) (input : input_data) :
  Forall (λ c : gmap string pyval, is_Some (c !! "name")) (cards input) →
  ∃ t, analyzer_invoke client card_meanings call input = Ok (AIMessage t)
     ∧ analysis_text client card_meanings call input = Ok t.
Proof.
  intros Hcards.
  destruct (prepare_prompt_input_total card_meanings input Hcards) as (x & Hx & Hctx).
  unfold analysis_text, analyzer_invoke, analyzer_messages. rewrite Hx. cbn [bind].
  unfold build_messages. rewrite format_system_message, format_prompt_analysis. cbn [bind].
  destruct (_generate_single client empty_kwargs call
              [SystemMessage (system_text_0 +:+ card_details x +:+ system_text_1
                              +:+ pi_context x +:+ system_text_2 +:+ symbolism x
                              +:+ system_text_3);
               HumanMessage (pi_context x)]) as [t Ht].
  unfold invoke. rewrite Ht. simpl. by exists t.
Qed.


Section ReadingProperties.
Variables (client : QwenLLMImproved) (card_meanings : gmap string (gmap string string)).


(** X19: whatever the service does, a reading of cards that all carry a
    name returns a message and raises nothing. *)
Theorem reading_never_raises (call : request → call_outcome) (input : input_data) :
  Forall (λ c : gmap string pyval, is_Some (c !! "name")) (cards input) →
  ∃ t, analyzer_invoke client card_meanings call input = Ok (AIMessage t)
     ∧ analysis_text client card_meanings call input = Ok t.
Proof. apply analysis_text_total. Qed.

End ReadingProperties.


Lemma reading_never_raises_witness :
  ∃ t, analyzer_invoke sample_client fool_deck (λ _, Raised (OtherError "down"))
         {| cards := [fool_upright]; context := "What now?" |} = Ok (AIMessage t)
     ∧ analysis_text sample_client fool_deck (λ _, Raised (OtherError "down"))
         {| cards := [fool_upright]; context := "What now?" |} = Ok t.
Proof.
  apply (reading_never_raises sample_client fool_deck).
  repeat constructor. by eexists.
Defined.

(** ** The button handler *)

Section HandlerProperties.
Context {G : Type} `{RandomSource G}.
Variable open_image : string → image_open.

Lemma render_card_drawn (nm : string) (b : bool) :
  render_card open_image (drawn_card nm b)
  = match open_image ("images/" +:+ nm) with
    | Opened => Ok (StImage ("images/" +:+ nm) b (nm +:+ " (R)") 150)
    | FileNotFound =>
        Ok (StInfo ("符号：" +:+ nm +:+ " (R) (在 images/" +:+ nm +:+ " 未找到图片)"))
    | OpenFailed e => Raise e
    end.
Proof.
  unfold render_card, drawn_card, reversed_label, has_key, is_rotated, dict_get.
  rewrite lookup_insert_eq, lookup_insert_ne, lookup_insert_eq by done.
  rewrite bool_decide_true by (by eexists). simpl.
  by destruct (open_image _).
Qed.

Lemma render_cards_drawn (names : list string) (flags : list bool) :
  (∀ path e, open_image path ≠ OpenFailed e) →
  ∃ events,
    render_cards open_image (zip_with drawn_card names flags) = (events, None)
    ∧ Forall2 (λ '(nm, b) event, shown_for nm b event) (zip names flags) events.
Proof.
  intros Hopen. revert flags.
  induction names as [|nm names IH]; intros [|b flags]; simpl; try by eexists.
  rewrite render_card_drawn. destruct (IH flags) as (events & -> & Hevents).
  destruct (open_image ("images/" +:+ nm)) as [| |e] eqn:Himg.
  - eexists. split; [reflexivity|]. constructor; [by left|done].
  - eexists. split; [reflexivity|]. constructor; [by right|done].
  - by destruct (Hopen _ _ Himg).
Qed.

(** Drawn cards all carry a name. *)
Lemma drawn_cards_named (names : list string) (flags : list bool) :
  Forall (λ c : gmap string pyval, is_Some (c !! "name")) (zip_with drawn_card names flags).
Proof.
  revert flags. induction names as [|nm names IH]; intros [|b flags]; simpl;
    try constructor; [|done].
  unfold drawn_card. rewrite lookup_insert_eq. by eexists.
Qed.

(** X20: without a question, or with fewer distinct card names than cards
    asked for, the handler shows one message and nothing else: the generator
    is left as it was, no picture is opened and the model is not asked. *)
Theorem on_click_no_reading (analyze : input_data → result string)
    (rows : list csv_row) (choice : num_choice) (context_question : string) (g : G) :
  on_click analyze open_image rows choice "" g
  = ([StWarning "为了获得更精确的解读，请输入您的问题或背景信息。"], g)
  ∧ (context_question ≠ "" →
     num_cards_of choice > Z.of_nat (length (card_names_in_dataset rows)) →
     on_click analyze open_image rows choice context_question g
     = ([StError ("发生错误：请求的牌数(" +:+ str_of_Z (num_cards_of choice)
                  +:+ ")超过了可用牌数("
                  +:+ str_of_Z (Z.of_nat (length (card_names_in_dataset rows))) +:+ ")")],
        g)).
Proof.
  split; [reflexivity|]. intros Hq Hn. unfold on_click.
  rewrite (proj2 (String.eqb_neq _ _) Hq).
  unfold generate_random_draw. by rewrite decide_True.
Qed.

(** X21: with a question and enough card names, and pictures that open or
    are missing, the handler shows the heading, one picture or notice per
    drawn card in draw order, each captioned with the marker and turned
    exactly when the card is reversed, and then the text of the analysis, or
    the error of the analysis in its place. *)
Theorem on_click_shows_cards (analyze : input_data → result string)
    (rows : list csv_row) (choice : num_choice) (context_question : string) (g : G) :
  context_question ≠ "" →
  num_cards_of choice ≤ Z.of_nat (length (card_names_in_dataset rows)) →
  (∀ path e, open_image path ≠ OpenFailed e) →
  ∃ (names : list string) (flags : list bool) (events : list st_event) (g' : G),
    on_click analyze open_image rows choice context_question g
    = (([StSubheader "✨ 您的卡牌已揭晓："; StMarkdown "---"] ++ events
        ++ match analyze {| cards := zip_with drawn_card names flags;
                            context := context_question |} with
           | Ok analysis =>
               [StMarkdown "---"; StSubheader "📜 解读结果："; StWrite analysis]
           | Raise e => [StMarkdown "---"; StError ("发生错误：" +:+ exn_str e)]
           end)%list, g')
    ∧ length names = Z.to_nat (num_cards_of choice)
    ∧ length flags = Z.to_nat (num_cards_of choice)
    ∧ Forall2 (λ '(nm, b) event, shown_for nm b event) (zip names flags) events.
Proof.
  intros Hq Hn Hopen.
  assert (0 ≤ num_cards_of choice) as Hpos by (by destruct choice).
  destruct (draw_within_range (card_names_in_dataset rows) (num_cards_of choice) g
              (conj Hpos Hn)) as (ps & flags & g' & Hdraw & _ & _ & _ & Hfl & Hlen).
  destruct (render_cards_drawn (omap (λ p, card_names_in_dataset rows !! p) ps) flags Hopen)
    as (events & Hrender & Hevents).
  exists (omap (λ p, card_names_in_dataset rows !! p) ps), flags, events, g'.
  split; [|split; [done|split; [lia|done]]].
  unfold on_click. rewrite (proj2 (String.eqb_neq _ _) Hq).
  rewrite Hdraw, Hrender.
  by destruct (analyze _).
Qed.

(** X22: on the configured client the same run always ends with the text
    of the analysis: a failure of the service is shown as that text, and no
    error banner comes up. *)
Theorem on_click_live_reading (client : QwenLLMImproved)
    (card_meanings : gmap string (gmap string string)) (call : request → call_outcome)
    (rows : list csv_row) (choice : num_choice) (context_question : string) (g : G) :
  context_question ≠ "" →
  num_cards_of choice ≤ Z.of_nat (length (card_names_in_dataset rows)) →
  (∀ path e, open_image path ≠ OpenFailed e) →
  ∃ (events : list st_event) (analysis : string) (g' : G),
    on_click (analysis_text client card_meanings call) open_image rows choice
      context_question g
    = (([StSubheader "✨ 您的卡牌已揭晓："; StMarkdown "---"] ++ events
        ++ [StMarkdown "---"; StSubheader "📜 解读结果："; StWrite analysis])%list, g')
    ∧ length events = Z.to_nat (num_cards_of choice)
    ∧ Forall (λ event, ∀ body, event ≠ StError body) events.
Proof.
  intros Hq Hn Hopen.
  assert (0 ≤ num_cards_of choice) as Hpos by (by destruct choice).
  destruct (draw_within_range (card_names_in_dataset rows) (num_cards_of choice) g
              (conj Hpos Hn)) as (ps & flags & g' & Hdraw & _ & _ & _ & Hfl & Hlen).
  destruct (render_cards_drawn (omap (λ p, card_names_in_dataset rows !! p) ps) flags Hopen)
    as (events & Hrender & Hevents).
  destruct (analysis_text_total client card_meanings call
              {| cards := zip_with drawn_card
                            (omap (λ p, card_names_in_dataset rows !! p) ps) flags;
                 context := context_question |} (drawn_cards_named _ _))
    as (t & _ & Ht).
  exists events, t, g'. split; [|split].
  - unfold on_click. rewrite (proj2 (String.eqb_neq _ _) Hq).
    by rewrite Hdraw, Hrender, Ht.
  - apply Forall2_length in Hevents. rewrite length_zip in Hevents. lia.
  - clear -Hevents. induction Hevents as [|[nm b] event ? ? [->| ->] _ IH];
      constructor; done.
Qed.

End HandlerProperties.

(** ** The helpers for data files, image names and error banners *)

Section HelperProperties.

(** X23: the check passes exactly when every required column is there and
    the frame has a row and a column; it shows nothing when it passes and one
    error when it does not. *)
Theorem validate_card_data_passes (df : dataframe) (required_columns : list string) :
  ((validate_card_data df required_columns).1 = true
   ↔ (∀ col, col ∈ required_columns → col ∈ df_columns df) ∧ df_empty df = false)
  ∧ ((validate_card_data df required_columns).1 = true →
     (validate_card_data df required_columns).2 = [])
  ∧ ((validate_card_data df required_columns).1 = false →
     ∃ body, (validate_card_data df required_columns).2 = [StError body]).
Proof.
  unfold validate_card_data.
  destruct (filter (λ col, col ∉ df_columns df) required_columns) as [|col missing] eqn:Hmiss.
  - assert (∀ col, col ∈ required_columns → col ∈ df_columns df) as Hall.
    { intros col Hcol. destruct (decide (col ∈ df_columns df)) as [|Hnot]; [done|].
      assert (col ∈ filter (λ col, col ∉ df_columns df) required_columns) as Hin
        by (by apply list_elem_of_filter).
      rewrite Hmiss in Hin. by apply elem_of_nil in Hin. }
    destruct (df_empty df); simpl.
    + split; [split; [done|by intros [_ ?]]|]. split; [done|]. by eexists.
    + split; [done|]. split; [done|]. done.
  - assert (col ∈ filter (λ col, col ∉ df_columns df) required_columns) as Hin
      by (rewrite Hmiss; left).
    apply list_elem_of_filter in Hin as [Hnot Hreq]. simpl.
    split; [split; [done|]|].
    + intros [Hall _]. by destruct Hnot; apply Hall.
    + split; [done|]. by eexists.
Qed.

Lemma replace_char_removes (d : ascii) (s : string) :
  containsb (String d "") (replace_char d "" s) = false.
Proof.
  induction s as [|c s IH]; [done|]. simpl replace_char.
  destruct (Ascii.eqb c d) eqn:Hc; [exact IH|].
  rewrite containsb_char_cons, (Ascii.eqb_sym d c), Hc. exact IH.
Qed.

Lemma replace_char_keeps_free (d e : ascii) (s : string) :
  containsb (String d "") s = false →
  containsb (String d "") (replace_char e "" s) = false.
Proof.
  induction s as [|c s IH]; [done|]. simpl replace_char.
  rewrite containsb_char_cons, orb_false_iff. intros [Hc Hs].
  destruct (Ascii.eqb c e); [by apply IH|].
  rewrite containsb_char_cons, Hc. by apply IH.
Qed.

Lemma replace_char_free (d : ascii) (s : string) :
  containsb (String d "") s = false → replace_char d "" s = s.
Proof.
  induction s as [|c s IH]; [done|]. simpl replace_char.
  rewrite containsb_char_cons, orb_false_iff, (Ascii.eqb_sym d c). intros [-> Hs].
  by rewrite IH.
Qed.

Variable lower : string → string.

(** X24: the file name of a card is a stem followed by [.jpg]; the stem
    holds no space and no hyphen, and is the lower-cased name itself when that
    holds neither. *)
Theorem format_card_image_path_stem (card_name : string) :
  ∃ stem,
    format_card_image_path lower card_name = stem +:+ ".jpg"
    ∧ containsb " " stem = false
    ∧ containsb "-" stem = false
    ∧ (containsb " " (lower card_name) = false →
       containsb "-" (lower card_name) = false → stem = lower card_name).
Proof.
  eexists. split; [reflexivity|]. split; [|split].
  - apply replace_char_keeps_free, replace_char_removes.
  - apply replace_char_removes.
  - intros Hspace Hhyphen. by rewrite (replace_char_free " "), (replace_char_free "-").
Qed.

(** X25: every error gets a banner that quotes the text of the error,
    followed by one hint. *)
Theorem display_error_message_shape (error_type error_text : string) :
  ∃ banner hint,
    display_error_message lower error_type error_text = [StError banner; StInfo hint]
    ∧ contains error_text banner.
Proof.
  unfold display_error_message.
  destruct (containsb "ModuleNotFoundError" error_text);
    [|destruct (containsb "FileNotFoundError" error_text);
      [|destruct (containsb "API" error_text || containsb "key" (lower error_text))]];
    eexists _, _; (split; [reflexivity|]).
  - apply contains_append_l, contains_refl.
  - apply contains_append_l, contains_refl.
  - apply contains_append_l, contains_refl.
  - do 3 apply contains_append_l. apply contains_refl.
Qed.

(** X26: the configuration errors of the app and of the constructor are
    shown as API configuration errors, with the hint to check the key in the
    [.env] file. *)
Theorem display_configuration_error (env_key api_key_arg : option string)
    (model_arg : string) (temperature_arg top_p_arg : Q) (max_tokens_arg : Z) (e : exn) :
  configure env_key = Raise e
  ∨ Qwen.__init__ api_key_arg model_arg temperature_arg top_p_arg max_tokens_arg env_key
    = Raise e →
  display_error_message lower "ValueError" (exn_str e)
  = [StError ("🔑 API配置错误: " +:+ exn_str e);
     StInfo "💡 请检查.env文件中的DASHSCOPE_API_KEY配置"].
Proof.
  assert (∀ a m t p mt env,
            Qwen.__init__ a m t p mt env = Raise e →
            e = ValueError "通义千问API密钥未配置，请提供api_key参数或设置DASHSCOPE_API_KEY环境变量")
    as Hinit.
  { intros a m t p mt env. unfold Qwen.__init__.
    destruct (py_or a env); [destruct (is_falsy _)|]; congruence. }
  intros [Hconf|Hraise].
  - unfold configure in Hconf. destruct (is_falsy env_key).
    + injection Hconf as <-. reflexivity.
    + apply Hinit in Hconf as ->. reflexivity.
  - apply Hinit in Hraise as ->. reflexivity.
Qed.

End HelperProperties.

(** A frame with the four columns and two rows. *)
Lemma validate_card_data_passes_witness :
  validate_card_data {| df_columns := ["card"; "upright"; "reversed"; "symbolism"];
                        df_rows := 2 |}
    ["card"; "upright"; "reversed"; "symbolism"]
  = (true, []).
Proof.
  destruct (validate_card_data_passes
              {| df_columns := ["card"; "upright"; "reversed"; "symbolism"]; df_rows := 2 |}
              ["card"; "upright"; "reversed"; "symbolism"]) as (Hiff & Hshown & _).
  assert ((validate_card_data
             {| df_columns := ["card"; "upright"; "reversed"; "symbolism"]; df_rows := 2 |}
             ["card"; "upright"; "reversed"; "symbolism"]).1 = true) as Hpass.
  { apply Hiff. split; [|reflexivity]. intros col Hcol. exact Hcol. }
  specialize (Hshown Hpass).
  destruct (validate_card_data _ _) as [passed shown]. simpl in *. by subst.
Defined.

(** The empty key of the environment, shown as a banner. *)
Lemma display_configuration_error_witness :
  display_error_message (λ s, s) "ValueError"
    "通义千问API密钥未配置，请确保.env文件中包含DASHSCOPE_API_KEY"
  = [StError "🔑 API配置错误: 通义千问API密钥未配置，请确保.env文件中包含DASHSCOPE_API_KEY";
     StInfo "💡 请检查.env文件中的DASHSCOPE_API_KEY配置"].
Proof.
  exact (display_configuration_error (λ s, s) (Some "") None "qwen-plus"
           (8 # 10)%Q (8 # 10)%Q 2000
           (ValueError "通义千问API密钥未配置，请确保.env文件中包含DASHSCOPE_API_KEY")
           (or_introl eq_refl)).
Defined.
(** ** Captions of a draw *)

Section DrawCaptions.
Context {G : Type} `{RandomSource G}.

(** X27: in every draw that succeeds, each card holds a Boolean under
    [is_reversed], its picture is turned exactly when that is true, and its
    caption carries the marker [(R)] either way. *)
Theorem draw_captions_all_marked (D : list string) (n : Z) (g g' : G)
    (drawn : list (gmap string pyval)) :
  generate_random_draw n D g = (Ok drawn, g') →
  Forall (λ c : gmap string pyval,
            ∃ nm b, c !! "is_reversed" = Some (PBool b)
                  ∧ is_rotated c = b
                  ∧ caption c = Ok (nm +:+ " (R)")) drawn.
Proof.
  unfold generate_random_draw. destruct (decide _); [done|].
  unfold bindM at 1. destruct (random_sample D n g) as [[selected|e] g1]; [|done].
  destruct (for_each_draw_card selected g1) as (drawn' & g2 & Hdraw & Hdrawn).
  unfold bindM. rewrite Hdraw. unfold ret. intros [= <- <-].
  clear Hdraw. induction Hdrawn as [|c nm drawn' selected [Hname [b Hrev]] _ IH];
    constructor; [|done].
  exists nm, b. split; [done|].
  unfold is_rotated, dict_get, caption, reversed_label, has_key. rewrite Hname, Hrev.
  by rewrite bool_decide_true.
Qed.

End DrawCaptions.

(** ** Runs on concrete inputs *)

(** Two cards drawn on a tape, the second one upright. *)
Lemma draw_captions_all_marked_witness :
  Forall (λ c : gmap string pyval,
            ∃ nm b, c !! "is_reversed" = Some (PBool b)
                  ∧ is_rotated c = b
                  ∧ caption c = Ok (nm +:+ " (R)"))
         [drawn_card "Priestess" true; drawn_card "Magician" false].
Proof.
  apply (draw_captions_all_marked (G := list N) ["Fool"; "Magician"; "Priestess"] 2
           [5; 9007199254740991; 7; 4000000000000000; 88]%N [88%N]).
  vm_compute. reflexivity.
Defined.

(** A card without a name stops the resolver. *)
Lemma prepare_prompt_input_raises_witness :
  prepare_prompt_input {| cards := [fool_upright; ∅]; context := "q" |} fool_deck
  = Raise (KeyError "name").
Proof.
  apply (proj1 (prepare_prompt_input_raises fool_deck
                  {| cards := [fool_upright; ∅]; context := "q" |})).
  apply Exists_cons_tl, Exists_cons_hd. reflexivity.
Defined.

(** Three cards out of the three rows. *)
Lemma app_draw_distinct_witness :
  ∃ (names : list string) (flags : list bool) (g' : list N),
    generate_random_draw 3 (card_names_in_dataset three_rows) [5; 9; 7; 1; 2; 3]%N
    = (Ok (zip_with drawn_card names flags), g')
    ∧ length names = 3%nat
    ∧ length flags = 3%nat
    ∧ NoDup names
    ∧ Forall (λ nm, ∃ row, row ∈ three_rows ∧ row_card row = nm) names.
Proof.
  apply (app_draw_distinct (G := list N) three_rows Three). by vm_compute.
Defined.

(** A string handed to a client whose service is down. *)
Lemma invoke_returns_generation_witness :
  ∃ t,
    _generate sample_client [HumanMessage "hi"] no_kwargs (λ _, Raised (OtherError "down"))
    = Ok {| generations := [[ {| text := t |} ]] |}
    ∧ invoke_input_data sample_client (InputStr "hi") no_kwargs
        (λ _, Raised (OtherError "down")) = Ok (AIMessage t)
    ∧ predict_messages sample_client [HumanMessage "hi"] no_kwargs
        (λ _, Raised (OtherError "down")) = Ok (AIMessage t)
    ∧ (∀ txt, InputStr "hi" = InputStr txt →
              predict sample_client txt no_kwargs (λ _, Raised (OtherError "down")) = Ok t).
Proof.
  exact (invoke_returns_generation sample_client no_kwargs
           (λ _, Raised (OtherError "down")) (InputStr "hi")).
Defined.

(** Three cards asked of a file with one card. *)
Lemma on_click_no_reading_witness :
  on_click (λ _, Ok "unused") no_pictures (take 1 three_rows) Three "hi" [5; 9]%N
  = ([StError "发生错误：请求的牌数(3)超过了可用牌数(1)"], [5; 9]%N).
Proof.
  apply (proj2 (on_click_no_reading (G := list N) no_pictures (λ _, Ok "unused")
                  (take 1 three_rows) Three "hi" [5; 9]%N)); [done|by vm_compute].
Defined.

(** Three cards of three, no picture on disk, and an analysis that fails. *)
Lemma on_click_shows_cards_witness :
  ∃ (names : list string) (flags : list bool) (events : list st_event) (g' : list N),
    on_click (λ _, Raise (OtherError "down")) no_pictures three_rows Three "hi"
      [5; 9; 7; 1; 2; 3]%N
    = (([StSubheader "✨ 您的卡牌已揭晓："; StMarkdown "---"] ++ events
        ++ match (λ _ : input_data, Raise (OtherError "down"))
                   {| cards := zip_with drawn_card names flags; context := "hi" |} with
           | Ok analysis =>
               [StMarkdown "---"; StSubheader "📜 解读结果："; StWrite analysis]
           | Raise e => [StMarkdown "---"; StError ("发生错误：" +:+ exn_str e)]
           end)%list, g')
    ∧ length names = 3%nat
    ∧ length flags = 3%nat
    ∧ Forall2 (λ '(nm, b) event, shown_for nm b event) (zip names flags) events.
Proof.
  apply (on_click_shows_cards (G := list N) no_pictures (λ _, Raise (OtherError "down"))
           three_rows Three "hi"); [done|by vm_compute|done].
Defined.

(** The same run on a configured client whose service is down. *)
Lemma on_click_live_reading_witness :
  ∃ (events : list st_event) (analysis : string) (g' : list N),
    on_click (analysis_text sample_client fool_deck (λ _, Raised (OtherError "down")))
      no_pictures three_rows Three "hi" [5; 9; 7; 1; 2; 3]%N
    = (([StSubheader "✨ 您的卡牌已揭晓："; StMarkdown "---"] ++ events
        ++ [StMarkdown "---"; StSubheader "📜 解读结果："; StWrite analysis])%list, g')
    ∧ length events = 3%nat
    ∧ Forall (λ event, ∀ body, event ≠ StError body) events.
Proof.
  apply (on_click_live_reading (G := list N) no_pictures sample_client fool_deck
           (λ _, Raised (OtherError "down")) three_rows Three "hi");
    [done|by vm_compute|done].
Defined.

(** A name with a space and a hyphen. *)
Lemma format_card_image_path_stem_witness :
  ∃ stem,
    format_card_image_path (λ s, s) "the fool-card" = stem +:+ ".jpg"
    ∧ containsb " " stem = false
    ∧ containsb "-" stem = false
    ∧ (containsb " " "the fool-card" = false →
       containsb "-" "the fool-card" = false → stem = "the fool-card").
Proof. exact (format_card_image_path_stem (λ s, s) "the fool-card"). Defined.

Example format_card_image_path_run :
  format_card_image_path (λ s, s) "the fool-card" = "thefoolcard.jpg".
Proof. reflexivity. Qed.
